(** * go-infosight: the API client, its transport shim and the wellness accessor

    A shallow embedding of [infosight] (client, options, [BearerAuthTransport],
    [Wellness.GetObjectSet]) together with the parts of the Go standard
    library that the package calls: [strings], [net/http]'s header maps,
    [encoding/json]'s decoding into the package's structs.

    Go strings are byte sequences, here [string] (lists of 8-bit [ascii]).
    Header maps are reference objects: they live in a store indexed by
    locations, so that two requests sharing one map are told apart from two
    requests holding equal maps. *)

From Stdlib Require Import ZArith Ascii String List Bool Lia.
From stdpp Require Import base option strings gmap list fin_maps.

Local Open Scope string_scope.
Set Warnings "-register-all".

(** ** Package [strings] *)

(** [strings.HasPrefix]: [len(s) >= len(prefix) && s[0:len(prefix)] == prefix]. *)
Definition HasPrefix (s prefix : string) : bool :=
  (String.length prefix <=? String.length s)%nat
  && String.eqb (substring 0 (String.length prefix) s) prefix.

(** [strings.HasSuffix]:
    [len(s) >= len(suffix) && s[len(s)-len(suffix):] == suffix]. *)
Definition HasSuffix (s suffix : string) : bool :=
  (String.length suffix <=? String.length s)%nat
  && String.eqb
       (substring (String.length s - String.length suffix) (String.length suffix) s)
       suffix.

(** The slice expression [s[n:]]. *)
Definition slice_from (n : nat) (s : string) : string :=
  substring n (String.length s - n) s.

Fixpoint contains_byte (cutset : string) (c : ascii) : bool :=
  match cutset with
  | EmptyString => false
  | String d rest => Ascii.eqb c d || contains_byte rest c
  end.

(** [strings.TrimRight(s, cutset)] for a cutset of ASCII characters (the
    package passes ["/"] and ["\r\n"]): every trailing byte of [s] that is in
    the cutset is removed. *)
Fixpoint TrimRight (s cutset : string) : string :=
  match s with
  | EmptyString => EmptyString
  | String c rest =>
      match TrimRight rest cutset with
      | EmptyString => if contains_byte cutset c then EmptyString else String c EmptyString
      | t => String c t
      end
  end.

(** [strings.ReplaceAll(s, old, new)] for a non-empty [old] (the package
    passes a line feed): the non-overlapping occurrences of [old] are
    replaced from the left.  [skip] counts the bytes of a matched occurrence
    that are still to be dropped.  For an empty [old], where Go inserts [new]
    around every rune, the string is left as it is. *)
Fixpoint replace_from (skip : nat) (s old new : string) : string :=
  match s with
  | EmptyString => EmptyString
  | String c rest =>
      match skip with
      | S k => replace_from k rest old new
      | O =>
          if HasPrefix s old
          then new +:+ replace_from (String.length old - 1) rest old new
          else String c (replace_from 0 rest old new)
      end
  end.

Definition ReplaceAll (s old new : string) : string :=
  match old with
  | EmptyString => s
  | _ => replace_from 0 s old new
  end.

(** ** Package [encoding/json]: decoding into the package's structs

    The lexical layer is outside the model: a response body is either not a
    JSON text at all, or the first JSON value of the stream, with string
    escapes already resolved and numbers kept as their literals. *)

Inductive json :=
| JNull
| JBool (b : bool)
| JNumber (lit : string)
| JString (s : string)
| JArray (elems : list json)
| JObject (members : list (string * json)).

Inductive DecodeError :=
| EOF                                               (* empty body *)
| SyntaxError (msg : string)
| UnmarshalTypeError (value : string) (gotype : string).

Inductive body :=
| NotJSON (e : DecodeError)
| Document (j : json).

Inductive result (A : Type) :=
| Ok (a : A)
| Err (e : DecodeError).
Arguments Ok {A} a.
Arguments Err {A} e.

Definition bind {A B} (m : result A) (k : A -> result B) : result B :=
  match m with
  | Ok a => k a
  | Err e => Err e
  end.

Notation "'let*' x ':=' m 'in' k" := (bind m (fun x => k))
  (at level 10, x pattern, m at level 100, k at level 200).

(** A nil-able slice: [None] is the nil slice. *)
Definition slice (T : Type) : Type := option (list T).

(** The word [UnmarshalTypeError.Value] uses for a JSON value. *)
Definition kind (j : json) : string :=
  match j with
  | JNull => "null"
  | JBool _ => "bool"
  | JNumber _ => "number"
  | JString _ => "string"
  | JArray _ => "array"
  | JObject _ => "object"
  end.

(** *** Matching of member names against struct fields

    A member name selects a field when both fold to the same name: ASCII
    letters fold to upper case, and the only two runes outside ASCII that
    fold to an ASCII letter are U+017F (bytes C5 BF, folds to S) and U+212A
    (bytes E2 84 AA, folds to K). *)

Definition upper (c : ascii) : ascii :=
  let n := nat_of_ascii c in
  if ((97 <=? n) && (n <=? 122))%nat then ascii_of_nat (n - 32) else c.

Fixpoint foldName (s : string) : string :=
  match s with
  | EmptyString => EmptyString
  | String c rest =>
      match nat_of_ascii c, rest with
      | 197, String d rest' =>
          if (nat_of_ascii d =? 191)%nat then String "S" (foldName rest')
          else String c (foldName rest)
      | 226, String d (String e rest') =>
          if ((nat_of_ascii d =? 132) && (nat_of_ascii e =? 170))%nat
          then String "K" (foldName rest')
          else String c (foldName rest)
      | _, _ => String (upper c) (foldName rest)
      end
  end.

Definition is_field (key name : string) : bool :=
  String.eqb (foldName key) (foldName name).

(** *** [strconv.ParseInt(s, 10, 64)] *)

Definition digit (c : ascii) : option Z :=
  let n := nat_of_ascii c in
  if ((48 <=? n) && (n <=? 57))%nat then Some (Z.of_nat (n - 48)) else None.

Fixpoint parse_digits (s : string) (acc : Z) : option Z :=
  match s with
  | EmptyString => Some acc
  | String c rest =>
      match digit c with
      | Some d => parse_digits rest (10 * acc + d)%Z
      | None => None
      end
  end.

Definition in_int64 (n : Z) : bool :=
  ((- 2 ^ 63 <=? n) && (n <=? 2 ^ 63 - 1))%Z.

Definition ParseInt (s : string) : option Z :=
  let signed (neg : bool) (digits : string) :=
    match digits with
    | EmptyString => None
    | _ =>
        match parse_digits digits 0 with
        | Some n =>
            let v := if neg then (- n)%Z else n in
            if in_int64 v then Some v else None
        | None => None
        end
    end in
  match s with
  | String "-" rest => signed true rest
  | String "+" rest => signed false rest
  | _ => signed false s
  end.

(** *** The package's JSON-tagged structs (part_000, lines 77-147) *)

Record FaultDetail := { ErrorCode : string }.

Record Fault := { FaultString : string; Detail : option FaultDetail }.

(** [Status] and [StatusCode] carry no tag: their member names are the field
    names themselves. *)
Record FaultResponse := {
  FaultResponse_Status : string;
  FaultResponse_StatusCode : Z;
  FaultResponse_Fault : option Fault
}.

Record Status := { Message : string }.

Record PagingInfo := { Skip : Z; Limit : Z }.

Record FilterInfo := { Query : option (gmap string string) }.

Definition Order : Type := slice string.
Definition Sorting : Type := slice Order.

Record RequestInfo := {
  Paging : option PagingInfo;
  Filter : option FilterInfo;
  Sort : option Sorting
}.

(** [strconv.ParseFloat(s, 64)], which [encoding/json] calls for a number
    stored into an [interface{}]: the nearest [float64], or no value when the
    literal is out of range. *)
Class StrConv := {
  float64 : Type;
  ParseFloat : string -> option float64
}.

Section Decoding.
Context {strconv : StrConv}.

(** What [encoding/json] stores into an [interface{}].  A
    [map[string]interface{}] is kept as an association list with one entry
    per key. *)
Inductive any :=
| ANil
| ABool (b : bool)
| AFloat64 (f : float64)
| AString (s : string)
| ASlice (l : list any)
| AMap (m : list (string * any)).

Record APIResponse := {
  APIResponse_Status : option Status;
  APIResponse_Request : option RequestInfo;
  Data : slice any
}.

(** [m[k] = v] on the association list. *)
Fixpoint map_set {V} (k : string) (v : V) (m : list (string * V)) : list (string * V) :=
  match m with
  | [] => [(k, v)]
  | (k', v') :: rest =>
      if String.eqb k k' then (k, v) :: rest else (k', v') :: map_set k v rest
  end.

(** Decoding into an empty interface always builds a fresh value. *)
Fixpoint valueInterface (j : json) : result any :=
  match j with
  | JNull => Ok ANil
  | JBool b => Ok (ABool b)
  | JNumber lit =>
      match ParseFloat lit with
      | Some f => Ok (AFloat64 f)
      | None => Err (UnmarshalTypeError ("number " +:+ lit) "float64")
      end
  | JString s => Ok (AString s)
  | JArray elems =>
      let* l :=
        (fix each (xs : list json) : result (list any) :=
           match xs with
           | [] => Ok []
           | x :: rest =>
               let* v := valueInterface x in
               let* vs := each rest in
               Ok (v :: vs)
           end) elems in
      Ok (ASlice l)
  | JObject members =>
      let* m :=
        (fix each (ms : list (string * json)) (acc : list (string * any))
           : result (list (string * any)) :=
           match ms with
           | [] => Ok acc
           | (k, x) :: rest =>
               let* v := valueInterface x in
               each rest (map_set k v acc)
           end) members [] in
      Ok (AMap m)
  end.

(** Decoding into a value that already exists: [null] leaves a string, an
    integer or a struct as it is and resets a pointer, a slice or a map to
    nil; a member that occurs twice is decoded twice into the same field.
    The first type mismatch is the error [Decode] returns. *)

Definition decode_string (j : json) (cur : string) : result string :=
  match j with
  | JNull => Ok cur
  | JString s => Ok s
  | _ => Err (UnmarshalTypeError (kind j) "string")
  end.

Definition decode_int (j : json) (cur : Z) : result Z :=
  match j with
  | JNull => Ok cur
  | JNumber lit =>
      match ParseInt lit with
      | Some n => Ok n
      | None => Err (UnmarshalTypeError ("number " +:+ lit) "int")
      end
  | _ => Err (UnmarshalTypeError (kind j) "int")
  end.

Definition decode_ptr {T} (dec : json -> T -> result T) (zero : T)
    (j : json) (cur : option T) : result (option T) :=
  match j with
  | JNull => Ok None
  | _ => let* v := dec j (default zero cur) in Ok (Some v)
  end.

(** Elements are decoded into the elements the slice already has, and into
    zero values past its length. *)
Fixpoint decode_elems {T} (dec : json -> T -> result T) (zero : T)
    (xs : list json) (old : list T) : result (list T) :=
  match xs with
  | [] => Ok []
  | x :: rest =>
      let* v := dec x (hd zero old) in
      let* vs := decode_elems dec zero rest (tl old) in
      Ok (v :: vs)
  end.

Definition decode_slice {T} (gotype : string) (dec : json -> T -> result T) (zero : T)
    (j : json) (cur : slice T) : result (slice T) :=
  match j with
  | JNull => Ok None
  | JArray xs => let* l := decode_elems dec zero xs (default [] cur) in Ok (Some l)
  | _ => Err (UnmarshalTypeError (kind j) gotype)
  end.

Fixpoint fold_members {T} (step : T -> string -> json -> result T)
    (ms : list (string * json)) (cur : T) : result T :=
  match ms with
  | [] => Ok cur
  | (k, v) :: rest => let* cur' := step cur k v in fold_members step rest cur'
  end.

Definition decode_struct {T} (gotype : string) (step : T -> string -> json -> result T)
    (j : json) (cur : T) : result T :=
  match j with
  | JNull => Ok cur
  | JObject ms => fold_members step ms cur
  | _ => Err (UnmarshalTypeError (kind j) gotype)
  end.

(** A map element is decoded into a fresh zero value and then stored. *)
Definition decode_map_string (j : json) (cur : option (gmap string string))
    : result (option (gmap string string)) :=
  match j with
  | JNull => Ok None
  | JObject ms =>
      let* m := fold_members
                  (fun (m : gmap string string) k v =>
                     let* s := decode_string v "" in Ok (<[k := s]> m))
                  ms (default ∅ cur) in
      Ok (Some m)
  | _ => Err (UnmarshalTypeError (kind j) "map[string]string")
  end.

Definition decode_FaultDetail : json -> FaultDetail -> result FaultDetail :=
  decode_struct "infosight.FaultDetail" (fun cur k v =>
    if is_field k "errorcode" then
      let* s := decode_string v (ErrorCode cur) in Ok {| ErrorCode := s |}
    else Ok cur).

Definition decode_Fault : json -> Fault -> result Fault :=
  decode_struct "infosight.Fault" (fun cur k v =>
    if is_field k "faultstring" then
      let* s := decode_string v (FaultString cur) in
      Ok {| FaultString := s; Detail := Detail cur |}
    else if is_field k "detail" then
      let* d := decode_ptr decode_FaultDetail {| ErrorCode := "" |} v (Detail cur) in
      Ok {| FaultString := FaultString cur; Detail := d |}
    else Ok cur).

Definition zero_Fault : Fault := {| FaultString := ""; Detail := None |}.

Definition decode_FaultResponse : json -> FaultResponse -> result FaultResponse :=
  decode_struct "infosight.FaultResponse" (fun cur k v =>
    if is_field k "Status" then
      let* s := decode_string v (FaultResponse_Status cur) in
      Ok {| FaultResponse_Status := s;
            FaultResponse_StatusCode := FaultResponse_StatusCode cur;
            FaultResponse_Fault := FaultResponse_Fault cur |}
    else if is_field k "StatusCode" then
      let* n := decode_int v (FaultResponse_StatusCode cur) in
      Ok {| FaultResponse_Status := FaultResponse_Status cur;
            FaultResponse_StatusCode := n;
            FaultResponse_Fault := FaultResponse_Fault cur |}
    else if is_field k "fault" then
      let* f := decode_ptr decode_Fault zero_Fault v (FaultResponse_Fault cur) in
      Ok {| FaultResponse_Status := FaultResponse_Status cur;
            FaultResponse_StatusCode := FaultResponse_StatusCode cur;
            FaultResponse_Fault := f |}
    else Ok cur).

Definition zero_FaultResponse : FaultResponse :=
  {| FaultResponse_Status := ""; FaultResponse_StatusCode := 0; FaultResponse_Fault := None |}.

Definition decode_Status : json -> Status -> result Status :=
  decode_struct "infosight.Status" (fun cur k v =>
    if is_field k "message" then
      let* s := decode_string v (Message cur) in Ok {| Message := s |}
    else Ok cur).

Definition decode_PagingInfo : json -> PagingInfo -> result PagingInfo :=
  decode_struct "infosight.PagingInfo" (fun cur k v =>
    if is_field k "skip" then
      let* n := decode_int v (Skip cur) in Ok {| Skip := n; Limit := Limit cur |}
    else if is_field k "limit" then
      let* n := decode_int v (Limit cur) in Ok {| Skip := Skip cur; Limit := n |}
    else Ok cur).

Definition decode_FilterInfo : json -> FilterInfo -> result FilterInfo :=
  decode_struct "infosight.FilterInfo" (fun cur k v =>
    if is_field k "query" then
      let* m := decode_map_string v (Query cur) in Ok {| Query := m |}
    else Ok cur).

Definition decode_Order : json -> Order -> result Order :=
  decode_slice "infosight.Order" decode_string "".

Definition decode_Sorting : json -> Sorting -> result Sorting :=
  decode_slice "infosight.Sorting" decode_Order None.

Definition decode_RequestInfo : json -> RequestInfo -> result RequestInfo :=
  decode_struct "infosight.RequestInfo" (fun cur k v =>
    if is_field k "paging" then
      let* p := decode_ptr decode_PagingInfo {| Skip := 0; Limit := 0 |} v (Paging cur) in
      Ok {| Paging := p; Filter := Filter cur; Sort := Sort cur |}
    else if is_field k "filter" then
      let* f := decode_ptr decode_FilterInfo {| Query := None |} v (Filter cur) in
      Ok {| Paging := Paging cur; Filter := f; Sort := Sort cur |}
    else if is_field k "sort" then
      let* s := decode_ptr decode_Sorting None v (Sort cur) in
      Ok {| Paging := Paging cur; Filter := Filter cur; Sort := s |}
    else Ok cur).

Definition zero_RequestInfo : RequestInfo :=
  {| Paging := None; Filter := None; Sort := None |}.

(** [Data []interface{}]: every element is a fresh interface value, so what
    an earlier occurrence of the member left behind does not show. *)
Definition decode_Data (j : json) (cur : slice any) : result (slice any) :=
  decode_slice "[]interface {}" (fun x _ => valueInterface x) ANil j cur.

Definition decode_APIResponse : json -> APIResponse -> result APIResponse :=
  decode_struct "infosight.APIResponse" (fun cur k v =>
    if is_field k "status" then
      let* s := decode_ptr decode_Status {| Message := "" |} v (APIResponse_Status cur) in
      Ok {| APIResponse_Status := s;
            APIResponse_Request := APIResponse_Request cur;
            Data := Data cur |}
    else if is_field k "request" then
      let* r := decode_ptr decode_RequestInfo zero_RequestInfo v (APIResponse_Request cur) in
      Ok {| APIResponse_Status := APIResponse_Status cur;
            APIResponse_Request := r;
            Data := Data cur |}
    else if is_field k "data" then
      let* d := decode_Data v (Data cur) in
      Ok {| APIResponse_Status := APIResponse_Status cur;
            APIResponse_Request := APIResponse_Request cur;
            Data := d |}
    else Ok cur).

Definition zero_APIResponse : APIResponse :=
  {| APIResponse_Status := None; APIResponse_Request := None; Data := None |}.

(** [json.NewDecoder(body).Decode(&v)] for a [v] that [dec] decodes into. *)
Definition Decode {T} (dec : json -> T -> result T) (b : body) (v : T) : result T :=
  match b with
  | NotJSON e => Err e
  | Document j => dec j v
  end.

End Decoding.

(** [FaultResponse.Error] (part_000, lines 108-113). *)
Definition FaultResponse_Error (e : FaultResponse) : string :=
  match FaultResponse_Fault e with
  | Some f => FaultString f
  | None => FaultResponse_Status e
  end.

(** ** Go [error] values

    [*FaultResponse] has an [Error] method, so a fault envelope can be an
    [error]; the other errors the package meets come from [net/url],
    [encoding/json], the transport, or a caller's option. *)
Inductive error :=
| URLError (msg : string)
| JSONError (e : DecodeError)
| FaultError (f : FaultResponse)
| OtherError (msg : string).

Definition DecodeError_message (e : DecodeError) : string :=
  match e with
  | EOF => "EOF"
  | SyntaxError msg => msg
  | UnmarshalTypeError value gotype =>
      "json: cannot unmarshal " +:+ value +:+ " into Go value of type " +:+ gotype
  end.

Definition error_message (e : error) : string :=
  match e with
  | URLError msg => msg
  | JSONError d => DecodeError_message d
  | FaultError f => FaultResponse_Error f
  | OtherError msg => msg
  end.

(** ** Package [net/http]: header maps *)

Definition is_lower (c : ascii) : bool :=
  let n := nat_of_ascii c in ((97 <=? n) && (n <=? 122))%nat.

Definition is_upper (c : ascii) : bool :=
  let n := nat_of_ascii c in ((65 <=? n) && (n <=? 90))%nat.

Definition is_digit (c : ascii) : bool :=
  let n := nat_of_ascii c in ((48 <=? n) && (n <=? 57))%nat.

Definition lower (c : ascii) : ascii :=
  if is_upper c then ascii_of_nat (nat_of_ascii c + 32) else c.

(** [textproto]'s [validHeaderFieldByte]: the token characters of RFC 7230. *)
Definition validHeaderFieldByte (c : ascii) : bool :=
  is_lower c || is_upper c || is_digit c || contains_byte "!#$%&'*+-.^_`|~" c.

Fixpoint all_bytes (p : ascii -> bool) (s : string) : bool :=
  match s with
  | EmptyString => true
  | String c rest => p c && all_bytes p rest
  end.

(** Upper case for the first letter and after each dash, lower case
    elsewhere. *)
Fixpoint canonical_from (up : bool) (s : string) : string :=
  match s with
  | EmptyString => EmptyString
  | String c rest =>
      let c' := if up then upper c else lower c in
      String c' (canonical_from (Ascii.eqb c' "-") rest)
  end.

(** [textproto.CanonicalMIMEHeaderKey]: a key with a byte that is not a token
    character is returned unchanged. *)
Definition CanonicalMIMEHeaderKey (s : string) : string :=
  if all_bytes validHeaderFieldByte s then canonical_from true s else s.

(** [http.Header] is [map[string][]string].  No code of the package writes
    through a value slice, so the values are kept as lists. *)
Abbreviation HeaderMap := (gmap string (list string)).

(** [Header.Get]: the first value under the canonical key, or [""]. *)
Definition Header_Get (h : HeaderMap) (key : string) : string :=
  match h !! CanonicalMIMEHeaderKey key with
  | Some (v :: _) => v
  | _ => ""
  end.

(** [Header.Set]: [h[CanonicalMIMEHeaderKey(key)] = []string{value}]. *)
Definition Header_Set (h : HeaderMap) (key value : string) : HeaderMap :=
  <[CanonicalMIMEHeaderKey key := [value]]> h.

(** ** The store: header maps by location, and the log sink *)

Abbreviation loc := positive.

Record State := {
  headers : gmap loc HeaderMap;
  log : list string
}.

Definition set_headers (s : State) (hs : gmap loc HeaderMap) : State :=
  {| headers := hs; log := log s |}.

Definition set_log (s : State) (l : list string) : State :=
  {| headers := headers s; log := l |}.

(** [make(http.Header, n)]: a map object at a location not in use. *)
Definition make_Header (s : State) : loc * State :=
  let l := fresh (dom (headers s)) in
  (l, set_headers s (<[l := ∅]> (headers s))).

(** The contents of the map a header field refers to; a nil map reads as
    empty. *)
Definition header_at (s : State) (h : option loc) : HeaderMap :=
  match h with
  | Some l => default ∅ (headers s !! l)
  | None => ∅
  end.

(** ** Contexts

    The only value the package stores in a context is the [*http.Client] that
    [oauth2] is to use, under the key [oauth2.HTTPClient]; its transport is a
    [BearerAuthTransport] around [http.DefaultTransport]. *)
Inductive TransportRef :=
| HTTPDefaultTransport
| BearerAuthTransportRef (rt : TransportRef).

Inductive Context :=
| Background
| CallerContext (id : nat)
| WithValue_HTTPClient (parent : Context) (transport : TransportRef).

(** ** Package [net/url], as far as the package depends on it *)
Class NetURL := {
  URL : Type;
  url_Parse : string -> error + URL;
  URL_String : URL -> string;
  URL_Host : URL -> string
}.

Section Http.
Context {neturl : NetURL}.

(** ** Requests and responses *)

Record Request := {
  Method : string;
  Request_URL : URL;
  Header : option loc;
  Host : string;
  Request_ctx : Context
}.

Record Response := {
  Response_Status : string;
  StatusCode : Z;
  Body : body
}.

(** [Request.WithContext]: a shallow copy of the request with its context
    changed; the receiver is left as it was.  It panics on a nil context. *)
Definition Request_WithContext (r : Request) (ctx : option Context) : option Request :=
  match ctx with
  | None => None
  | Some cx =>
      Some {| Method := Method r; Request_URL := Request_URL r; Header := Header r;
              Host := Host r; Request_ctx := cx |}
  end.

(** [h[k] = v] on the map object at [l]. *)
Definition header_assign (l : loc) (k : string) (v : list string) (s : State) : State :=
  set_headers s (<[l := <[k := v]> (header_at s (Some l))]> (headers s)).

(** [req.Header.Set(key, value)]: [Header.Set] on the map the request refers
    to; assignment to an entry of a nil map panics. *)
Definition Request_Header_Set (r : Request) (key value : string) (s : State) : option State :=
  match Header r with
  | None => None
  | Some l =>
      Some (set_headers s (<[l := Header_Set (header_at s (Some l)) key value]> (headers s)))
  end.

Definition Request_Header_Get (r : Request) (key : string) (s : State) : string :=
  Header_Get (header_at s (Header r)) key.

(** [http.NewRequest(method, url, nil)]: the method must be a token, the URL
    must parse; the request gets a fresh empty header map and the background
    context. *)
Definition validMethod (m : string) : bool :=
  negb (String.eqb m "") && all_bytes validHeaderFieldByte m.

Definition NewRequest (method rawurl : string) (s : State) : (Request + error) * State :=
  let method := if String.eqb method "" then "GET" else method in
  if negb (validMethod method) then (inr (OtherError ("net/http: invalid method " +:+ method)), s)
  else
    match url_Parse rawurl with
    | inl e => (inr e, s)
    | inr u =>
        let '(l, s') := make_Header s in
        (inl {| Method := method; Request_URL := u; Header := Some l;
                Host := URL_Host u; Request_ctx := Background |}, s')
    end.

(** [http.RoundTripper] and [HTTPRequestDoer] (part_000, lines 70-75): one
    exchange, which may fail, in a store it may change. *)
Definition RoundTripper : Type :=
  Request -> State -> (option Response * option error) * State.

Definition HTTPRequestDoer : Type := RoundTripper.

End Http.

(** ** External collaborators of the client

    [httputil]'s dumps render a request or a response as text and may fail;
    [clientcredentials.Config.Client] builds the authenticated HTTP client.

    A dump reads the body it is given and puts back a reader over the same
    bytes.  Bodies are data here, not streams, so a response is the same
    value before and after a dump; the state in which a failed dump leaves a
    body stream is not part of the model. *)

Record Config := {
  ClientID : string;
  ClientSecret : string;
  TokenURL : string;
  Scopes : list string
}.

Class HTTPUtil {neturl : NetURL} := {
  DumpRequestOut : Request -> State -> error + string;
  DumpResponse : Response -> error + string
}.

Class OAuth2 {neturl : NetURL} := {
  Config_Client : Config -> Context -> HTTPRequestDoer
}.

Section Infosight.
Context {neturl : NetURL} {strconv : StrConv} {httputil : HTTPUtil} {oauth2 : OAuth2}.

(** ** The client (part_000) *)

Definition defaultServer : string := "https://infosight.hpe.com/apis/".

Definition defaultVersion : string := "v1".

(** [Wellness] embeds the [*Client] it was made for; here its methods take
    that client as an argument. *)
Record Wellness := { Version : string }.

Record Client := {
  Server : string;
  Client_Wellness : option Wellness;
  innerClient : option HTTPRequestDoer;
  oauthConfig : option Config;
  ctx : option Context;
  userAgent : string;
  token : option string;
  user : string;
  password : string;
  insecure : bool;
  trace : bool
}.

Definition with_Server (v : string) (c : Client) : Client :=
  {| Server := v; Client_Wellness := Client_Wellness c; innerClient := innerClient c;
     oauthConfig := oauthConfig c; ctx := ctx c; userAgent := userAgent c;
     token := token c; user := user c; password := password c;
     insecure := insecure c; trace := trace c |}.

Definition with_Wellness (v : option Wellness) (c : Client) : Client :=
  {| Server := Server c; Client_Wellness := v; innerClient := innerClient c;
     oauthConfig := oauthConfig c; ctx := ctx c; userAgent := userAgent c;
     token := token c; user := user c; password := password c;
     insecure := insecure c; trace := trace c |}.

Definition with_innerClient (v : option HTTPRequestDoer) (c : Client) : Client :=
  {| Server := Server c; Client_Wellness := Client_Wellness c; innerClient := v;
     oauthConfig := oauthConfig c; ctx := ctx c; userAgent := userAgent c;
     token := token c; user := user c; password := password c;
     insecure := insecure c; trace := trace c |}.

Definition with_oauthConfig (v : option Config) (c : Client) : Client :=
  {| Server := Server c; Client_Wellness := Client_Wellness c; innerClient := innerClient c;
     oauthConfig := v; ctx := ctx c; userAgent := userAgent c;
     token := token c; user := user c; password := password c;
     insecure := insecure c; trace := trace c |}.

Definition with_ctx (v : option Context) (c : Client) : Client :=
  {| Server := Server c; Client_Wellness := Client_Wellness c; innerClient := innerClient c;
     oauthConfig := oauthConfig c; ctx := v; userAgent := userAgent c;
     token := token c; user := user c; password := password c;
     insecure := insecure c; trace := trace c |}.

Definition with_userAgent (v : string) (c : Client) : Client :=
  {| Server := Server c; Client_Wellness := Client_Wellness c; innerClient := innerClient c;
     oauthConfig := oauthConfig c; ctx := ctx c; userAgent := v;
     token := token c; user := user c; password := password c;
     insecure := insecure c; trace := trace c |}.

Definition with_login (u p : string) (c : Client) : Client :=
  {| Server := Server c; Client_Wellness := Client_Wellness c; innerClient := innerClient c;
     oauthConfig := oauthConfig c; ctx := ctx c; userAgent := userAgent c;
     token := token c; user := u; password := p;
     insecure := insecure c; trace := trace c |}.

Definition with_trace (v : bool) (c : Client) : Client :=
  {| Server := Server c; Client_Wellness := Client_Wellness c; innerClient := innerClient c;
     oauthConfig := oauthConfig c; ctx := ctx c; userAgent := userAgent c;
     token := token c; user := user c; password := password c;
     insecure := insecure c; trace := v |}.

(** [ClientOption]: a function that is given the client by pointer and
    returns an error; here, the client as the option leaves it and the error
    it returns. *)
Definition ClientOption : Type := Client -> Client * option error.

Definition WithTrace (t : bool) : ClientOption :=
  fun c => (with_trace t c, None).

Definition WithUserAgent (ua : string) : ClientOption :=
  fun c => (with_userAgent ua c, None).

Definition WithContext (cx : option Context) : ClientOption :=
  fun c => (with_ctx cx c, None).

Definition WithLogin (u p : string) : ClientOption :=
  fun c => (with_login u p c, None).

Definition WithBaseURL (baseURL : string) : ClientOption :=
  fun c =>
    match url_Parse baseURL with
    | inl err => (c, Some err)
    | inr newBaseURL => (with_Server (URL_String newBaseURL) c, None)
    end.

Definition NewWellness (client : Client) : Wellness :=
  {| Version := defaultVersion |}.

(** The loop over the options (lines 195-199): the first error ends it. *)
Fixpoint apply_options (opts : list ClientOption) (c : Client) : Client + error :=
  match opts with
  | [] => inl c
  | o :: rest =>
      match o c with
      | (_, Some err) => inr err
      | (c', None) => apply_options rest c'
      end
  end.

(** The struct literal of lines 189-192: the server and the user agent are
    given, every other field has its zero value. *)
Definition new_Client (baseURL : string) : Client :=
  {| Server := baseURL; Client_Wellness := None; innerClient := None;
     oauthConfig := None; ctx := None; userAgent := "go-infosight";
     token := None; user := ""; password := "";
     insecure := false; trace := false |}.

Definition NewClient (baseURL : string) (opts : list ClientOption)
    : option Client * option error :=
  let baseURL := TrimRight baseURL "/" in
  let c := new_Client baseURL in
  match apply_options opts c with
  | inr err => (None, Some err)
  | inl c =>
      let c := match ctx c with
               | None => with_ctx (Some Background) c
               | Some _ => c
               end in
      let transport := BearerAuthTransportRef HTTPDefaultTransport in
      let c := with_ctx (Some (WithValue_HTTPClient (default Background (ctx c)) transport)) c in
      let c := if String.eqb (Server c) "" then with_Server defaultServer c else c in
      let c := if negb (HasSuffix (Server c) "/")
               then with_Server (Server c +:+ "/") c else c in
      let cfg := {| ClientID := user c; ClientSecret := password c;
                    TokenURL := Server c +:+ "oauth/token"; Scopes := [""] |} in
      let c := with_oauthConfig (Some cfg) c in
      let c := with_innerClient (Some (Config_Client cfg (default Background (ctx c)))) c in
      let c := with_Wellness (Some (NewWellness c)) c in
      (Some c, None)
  end.

(** [NewClientFromEnvironment]: [env] is [os.Getenv]. *)
Definition NewClientFromEnvironment (env : string -> string) (opts : list ClientOption)
    : option Client * option error :=
  let baseURL := env "INFOSIGHT_URL" in
  let u := env "INFOSIGHT_CLIENT_KEY" in
  let p := env "INFOSIGHT_CLIENT_SECRET" in
  let opts := (opts ++ [WithLogin u p])%list in
  match NewClient baseURL opts with
  | (_, Some err) => (None, Some err)
  | (c, None) => (c, None)
  end.

(** ** [Client.do] (lines 250-287) *)

(** [Tracef]: one line on the log sink. *)
Definition Tracef (msg : string) (s : State) : State :=
  set_log s (log s ++ ["[TRACE] " +:+ msg])%list.

Definition indent : string := String "010" "                            ".

Definition dump_text (dump : string) : string :=
  ReplaceAll (TrimRight dump (String "013" (String "010" ""))) (String "010" "") indent.

(** Lines 263-267.  The request returned by [WithContext] is dropped; the
    three [Set] calls write into the header map of [req] itself. *)
Definition do_prepare (c : Client) (req : Request) (s : State) : option State :=
  match Request_WithContext req (ctx c) with
  | None => None
  | Some _ =>
      match Request_Header_Set req "User-Agent" (userAgent c) s with
      | None => None
      | Some s1 =>
          match Request_Header_Set req "Accept" "application/json" s1 with
          | None => None
          | Some s2 => Request_Header_Set req "Content-Type" "application/json" s2
          end
      end
  end.

(** Lines 270-285: what tracing adds to the store. *)
Definition do_trace (req : Request) (r : option Response) (s : State) : State :=
  let '(reqStr, _) :=
    match DumpRequestOut req s with
    | inr dump => (dump_text dump, @None error)
    | inl err => ("", Some err)
    end in
  let '(dump, err) :=
    match r with
    | None => ("", @None error)
    | Some r =>
        match DumpResponse r with
        | inr dump => (dump, None)
        | inl err => ("", Some err)
        end
    end in
  match err with
  | None => Tracef (reqStr +:+ String "010" (String "010" "") +:+ "                            "
                      +:+ dump_text dump +:+ String "010" "") s
  | Some _ => s
  end.

(** [None] is a panic: a nil context, a nil header map or a nil inner
    client. *)
Definition do (c : Client) (req : Request) (s : State)
    : option ((option Response * option error) * State) :=
  match do_prepare c req s with
  | None => None
  | Some s1 =>
      match innerClient c with
      | None => None
      | Some inner =>
          let '((r, e), s2) := inner req s1 in
          let s3 := if trace c then do_trace req r s2 else s2 in
          Some ((r, e), s3)
      end
  end.

(** ** [BearerAuthTransport] (lines 293-325) *)

Record BearerAuthTransport := { rt : RoundTripper }.

(** [cloneRequest]: the struct is copied, [Header] is made to refer to a new
    map, and every entry of the old map is assigned into the new one. *)
Definition cloneRequest (r : Request) (s : State) : Request * State :=
  let '(l2, s1) := make_Header s in
  let r2 := {| Method := Method r; Request_URL := Request_URL r; Header := Some l2;
               Host := Host r; Request_ctx := Request_ctx r |} in
  (r2, map_fold (fun k v st => header_assign l2 k v st) s1 (header_at s (Header r))).

(** Lines 302-308: the request handed to the wrapped transport, and the store
    it is handed in. *)
Definition RoundTrip_request (req : Request) (s : State) : option (Request * State) :=
  let auth := Request_Header_Get req "Authorization" s in
  let auth := if HasPrefix auth "BearerToken "
              then "Bearer " +:+ slice_from 12 auth else auth in
  let '(req2, s1) := cloneRequest req s in
  match Request_Header_Set req2 "Authorization" auth s1 with
  | None => None
  | Some s2 => Some (req2, s2)
  end.

Definition RoundTrip (t : BearerAuthTransport) (req : Request) (s : State)
    : option ((option Response * option error) * State) :=
  match RoundTrip_request req s with
  | None => None
  | Some (req2, s2) => Some (rt t req2 s2)
  end.

(** ** [Wellness] (wellness.go) *)

(** What [GetObjectSet] puts into its [interface{}] result: nothing, an
    [APIResponse] value, or a [*FaultResponse] (which may be a nil pointer). *)
Inductive Value :=
| VNil
| VAPIResponse (a : APIResponse)
| VFaultResponse (p : option FaultResponse).

(** [NewFaultResponse] (part_000, lines 96-106). *)
Definition NewFaultResponse (r : Response) : option FaultResponse * option error :=
  match Decode decode_FaultResponse (Body r) zero_FaultResponse with
  | Err err => (None, Some (JSONError err))
  | Ok faultResponse =>
      (Some {| FaultResponse_Status := Response_Status r;
               FaultResponse_StatusCode := StatusCode r;
               FaultResponse_Fault := FaultResponse_Fault faultResponse |}, None)
  end.

Definition queryURL (c : Client) (w : Wellness) (objectSet : string) : string :=
  Server c +:+ "wellness/" +:+ Version w +:+ "/" +:+ objectSet +:+ "?domain=urn:nimble".

(** Lines 37-53: what [GetObjectSet] makes of what [do] returned.  [None] is
    a panic: that of [do], or the dereference of a nil response that came
    without an error. *)
Definition GetObjectSet_response
    (out : option ((option Response * option error) * State))
    : option ((Value * option error) * State) :=
  match out with
  | None => None
  | Some ((_, Some err), s2) => Some ((VNil, Some err), s2)
  | Some ((None, None), s2) => None
  | Some ((Some r, None), s2) =>
      if (399 <? StatusCode r)%Z then
        let '(p, err) := NewFaultResponse r in
        Some ((VFaultResponse p, err), s2)
      else
        match Decode decode_APIResponse (Body r) zero_APIResponse with
        | Err err => Some ((VNil, Some (JSONError err)), s2)
        | Ok apiResponse => Some ((VAPIResponse apiResponse, None), s2)
        end
  end.

Definition GetObjectSet (c : Client) (w : Wellness) (objectSet : string) (s : State)
    : option ((Value * option error) * State) :=
  match NewRequest "GET" (queryURL c w objectSet) s with
  | (inr err, s1) => Some ((VNil, Some err), s1)
  | (inl req, s1) => GetObjectSet_response (do c req s1)
  end.

Definition GetIssues (c : Client) (w : Wellness) (s : State)
    : option ((Value * option error) * State) :=
  GetObjectSet c w "issues" s.

End Infosight.

(** * Notions used in the statements *)

(** The last byte of a string. *)
Fixpoint last_byte (s : string) : option ascii :=
  match s with
  | EmptyString => None
  | String c EmptyString => Some c
  | String _ rest => last_byte rest
  end.

(** A string ends with exactly one slash. *)
Definition ends_with_one_slash (s : string) : bool :=
  HasSuffix s "/" && negb (HasSuffix s "//").

(** The member of an object that ends up in the field [name]: the last one
    whose name matches. *)
Fixpoint last_member (name : string) (ms : list (string * json)) : option json :=
  match ms with
  | [] => None
  | (k, v) :: rest =>
      match last_member name rest with
      | Some x => Some x
      | None => if is_field k name then Some v else None
      end
  end.


Section Notions.
Context {neturl : NetURL} {strconv : StrConv} {httputil : HTTPUtil}.

(** An option that leaves the user agent, or the server, as it is. *)
Definition keeps_userAgent (o : ClientOption) : Prop :=
  forall c, userAgent (fst (o c)) = userAgent c.

Definition keeps_Server (o : ClientOption) : Prop :=
  forall c, Server (fst (o c)) = Server c.

(** What lines 209-215 make of the server the options left. *)
Definition normal_Server (server : string) : string :=
  let server := if String.eqb server "" then defaultServer else server in
  if negb (HasSuffix server "/") then server +:+ "/" else server.

(** The rewritten credential of lines 302-305. *)
Definition rewritten_auth (auth : string) : string :=
  if HasPrefix auth "BearerToken " then "Bearer " +:+ slice_from 12 auth else auth.

(** C3 as the claim states it: where the [Authorization] header does not
    start with [BearerToken ], the request handed on equals the original in
    every field and in every header. *)
Definition shim_passes_through (t : BearerAuthTransport) (req : Request) (s : State) : Prop :=
  HasPrefix (Request_Header_Get req "Authorization" s) "BearerToken " = false ->
  exists req2 s2,
    RoundTrip t req s = Some (rt t req2 s2) /\
    RoundTrip_request req s = Some (req2, s2) /\
    Method req2 = Method req /\ Request_URL req2 = Request_URL req /\
    Host req2 = Host req /\ Request_ctx req2 = Request_ctx req /\
    header_at s2 (Header req2) = header_at s (Header req).

(** C7 as the claim states it: for the name [objectSet], a GET request for
    the composed URL is built and handed to [do], and the result is made of
    what [do] returns. *)
Definition GetObjectSet_issues_GET (c : Client) (w : Wellness) (objectSet : string) (s : State) : Prop :=
  exists req s1,
    NewRequest "GET"
      (Server c +:+ "wellness/" +:+ Version w +:+ "/" +:+ objectSet +:+ "?domain=urn:nimble") s
    = (inl req, s1) /\
    Method req = "GET" /\
    GetObjectSet c w objectSet s = GetObjectSet_response (do c req s1).

End Notions.

(** ** An environment for the examples

    The theorems below hold for every implementation of the external
    packages.  The examples run the code, and for that they fix one: URLs are
    kept as written, and rejected when they hold an ASCII control character
    (as [url.Parse] rejects them); a float is named by its literal; a dump is
    a one-line rendering; the authenticated client is a canned transport. *)

Definition is_ctl (c : ascii) : bool :=
  let n := nat_of_ascii c in ((n <? 32) || (n =? 127))%nat.

Definition has_ctl (s : string) : bool :=
  negb (all_bytes (fun c => negb (is_ctl c)) s).

Fixpoint after_scheme (s : string) : string :=
  match s with
  | EmptyString => EmptyString
  | String _ rest => if HasPrefix s "://" then slice_from 3 s else after_scheme rest
  end.

Fixpoint until_path (s : string) : string :=
  match s with
  | EmptyString => EmptyString
  | String c rest => if contains_byte "/?#" c then EmptyString else String c (until_path rest)
  end.

Definition verbatim_url : NetURL := {|
  URL := string;
  url_Parse rawurl :=
    if has_ctl rawurl
    then inl (URLError "net/url: invalid control character in URL")
    else inr rawurl;
  URL_String u := u;
  URL_Host u := until_path (after_scheme u)
|}.

Definition literal_floats : StrConv := {|
  float64 := string;
  ParseFloat lit := Some lit
|}.

Definition plain_dumps : @HTTPUtil verbatim_url := {|
  DumpRequestOut req _ :=
    inr (Method req +:+ " " +:+ URL_String (NetURL := verbatim_url) (Request_URL req));
  DumpResponse r := inr (Response_Status r)
|}.

(** Dumps that always fail. *)
Definition failing_dumps : @HTTPUtil verbatim_url := {|
  DumpRequestOut _ _ := inl (OtherError "dump failed");
  DumpResponse _ := inl (OtherError "dump failed")
|}.

(** A transport that answers every request with [r]; an authenticated client
    that is such a transport; a shim around one. *)
Definition answering (r : Response) : @RoundTripper verbatim_url :=
  fun _ s => ((Some r, None), s).

Definition canned (r : Response) : @OAuth2 verbatim_url := {|
  Config_Client _ _ := answering r
|}.

Definition shim_over (r : Response) : @BearerAuthTransport verbatim_url :=
  @Build_BearerAuthTransport verbatim_url (answering r).

Definition empty_state : State := {| headers := ∅; log := [] |}.

(** The two scenarios of the specification: HTTP 200 with one record, and
    HTTP 403 with a fault. *)
Definition response_200 : Response := {|
  Response_Status := "200 OK";
  StatusCode := 200;
  Body := Document (JObject [("data", JArray [JObject [("id", JNumber "1")]])])
|}.

Definition response_403 : Response := {|
  Response_Status := "403 Forbidden";
  StatusCode := 403;
  Body := Document (JObject [("fault", JObject [("faultstring", JString "forbidden")])])
|}.

(** An authenticated client that answers with the name of the context the
    request carries. *)
Definition Context_name (cx : Context) : string :=
  match cx with
  | Background => "context.Background"
  | CallerContext _ => "caller context"
  | WithValue_HTTPClient _ _ => "context.WithValue(oauth2.HTTPClient)"
  end.

Definition reports_context : @OAuth2 verbatim_url := {|
  Config_Client _ _ := fun req s =>
    ((Some {| Response_Status := Context_name (Request_ctx req);
              StatusCode := 200; Body := NotJSON EOF |}, None), s)
|}.

(** The client [NewClient] returns, for the examples that know it succeeds. *)
Definition constructed {neturl : NetURL} (result : option Client * option error) : Client :=
  default (new_Client "") (fst result).

(** The request [GetIssues] builds for the base URL
    [https://example.com/api], and the store once it is built. *)
Definition issues_URL : string :=
  "https://example.com/api/wellness/v1/issues?domain=urn:nimble".

Definition issues_request : @Request verbatim_url :=
  @Build_Request verbatim_url "GET" issues_URL (Some 1%positive) "example.com" Background.

Definition issues_state : State := {| headers := {[ 1%positive := ∅ ]}; log := [] |}.

(** A request that carries a [BearerToken] credential and one other header. *)
Definition token_request : @Request verbatim_url :=
  @Build_Request verbatim_url "GET" issues_URL (Some 1%positive) "example.com" Background.

Definition token_state : State := {|
  headers := {[ 1%positive := {[ "Authorization" := ["BearerToken abc123"];
                                 "Accept" := ["application/json"] ]} ]};
  log := []
|}.

(** The store in which a client with the default user agent hands
    [issues_request] to its inner client. *)
Definition issues_state_sent : State :=
  header_assign 1%positive "Content-Type" ["application/json"]
    (header_assign 1%positive "Accept" ["application/json"]
       (header_assign 1%positive "User-Agent" ["go-infosight"] issues_state)).

(** ** Further notions *)

Section MoreNotions.
Context {neturl : NetURL} {oauth2 : OAuth2}.

(** An option that leaves the field [f] of the client as it is. *)
Definition keeps {A : Type} (f : Client -> A) (o : ClientOption) : Prop :=
  forall c, f (fst (o c)) = f c.

(** Lines 201-226 of [NewClient]: what it makes of the client the options
    left. *)
Definition NewClient_finish (c : Client) : Client :=
  let c := match ctx c with
           | None => with_ctx (Some Background) c
           | Some _ => c
           end in
  let transport := BearerAuthTransportRef HTTPDefaultTransport in
  let c := with_ctx (Some (WithValue_HTTPClient (default Background (ctx c)) transport)) c in
  let c := if String.eqb (Server c) "" then with_Server defaultServer c else c in
  let c := if negb (HasSuffix (Server c) "/")
           then with_Server (Server c +:+ "/") c else c in
  let cfg := {| ClientID := user c; ClientSecret := password c;
                TokenURL := Server c +:+ "oauth/token"; Scopes := [""] |} in
  let c := with_oauthConfig (Some cfg) c in
  let c := with_innerClient (Some (Config_Client cfg (default Background (ctx c)))) c in
  let c := with_Wellness (Some (NewWellness c)) c in
  c.

(** The context every constructed client ends up with, over the context
    [cx] the options left (nil when none was given). *)
Definition client_context (cx : option Context) : Context :=
  WithValue_HTTPClient (default Background cx) (BearerAuthTransportRef HTTPDefaultTransport).

End MoreNotions.

(** A JSON value that is neither [null] nor of the kind the field takes. *)
Definition not_null_nor_string (v : json) : Prop :=
  match v with
  | JNull | JString _ => False
  | _ => True
  end.

Definition not_null_nor_array (v : json) : Prop :=
  match v with
  | JNull | JArray _ => False
  | _ => True
  end.

(** An environment with the three variables set, and one with none. *)
Definition example_env (name : string) : string :=
  if String.eqb name "INFOSIGHT_URL" then "https://example.com/api/"
  else if String.eqb name "INFOSIGHT_CLIENT_KEY" then "env-key"
  else if String.eqb name "INFOSIGHT_CLIENT_SECRET" then "env-secret"
  else "".

Definition empty_env (name : string) : string := "".

(** Further responses and transports for the examples: a fault body that
    carries a [status] object, a success body whose [data] is a string, a
    fault-shaped body under HTTP 200, and an inner client that fails. *)
Definition response_403_with_status : Response := {|
  Response_Status := "403 Forbidden";
  StatusCode := 403;
  Body := Document (JObject [("status", JObject [("message", JString "denied")]);
                             ("fault", JObject [("faultstring", JString "forbidden")])])
|}.

Definition response_200_bad_data : Response := {|
  Response_Status := "200 OK";
  StatusCode := 200;
  Body := Document (JObject [("data", JString "none")])
|}.

Definition response_200_fault_body : Response := {|
  Response_Status := "200 OK";
  StatusCode := 200;
  Body := Document (JObject [("fault", JObject [("faultstring", JString "forbidden")])])
|}.

Definition refusing : @OAuth2 verbatim_url := {|
  Config_Client _ _ := fun _ s => ((None, Some (OtherError "connection refused")), s)
|}.

(** The store in which a client with the user agent [ua] hands
    [issues_request] to its inner client. *)
Definition issues_state_sent_as (ua : string) : State :=
  header_assign 1%positive "Content-Type" ["application/json"]
    (header_assign 1%positive "Accept" ["application/json"]
       (header_assign 1%positive "User-Agent" [ua] issues_state)).

(** * Properties *)

(** ** The library functions on examples *)

Example TrimRight_slashes : TrimRight "https://example.com/api///" "/" = "https://example.com/api".
Proof. reflexivity. Qed.

Example TrimRight_only_slashes : TrimRight "//" "/" = "".
Proof. reflexivity. Qed.

Example ReplaceAll_ab : ReplaceAll "a-b--c" "-" "+-" = "a+-b+-+-c".
Proof. reflexivity. Qed.

Example HasSuffix_slash : HasSuffix "abc/" "/" = true /\ HasSuffix "abc" "/" = false.
Proof. split; reflexivity. Qed.

Example is_field_case : is_field "FaultString" "faultstring" = true.
Proof. reflexivity. Qed.

Example is_field_other : is_field "faultstrin" "faultstring" = false.
Proof. reflexivity. Qed.

Example ParseInt_ok : ParseInt "-42" = Some (-42)%Z.
Proof. reflexivity. Qed.

Example ParseInt_fraction : ParseInt "1.5" = None.
Proof. reflexivity. Qed.

Example ParseInt_overflow : ParseInt "9223372036854775808" = None.
Proof. reflexivity. Qed.

Example canonical_content_type : CanonicalMIMEHeaderKey "content-type" = "Content-Type".
Proof. reflexivity. Qed.

Example canonical_space : CanonicalMIMEHeaderKey "user agent" = "user agent".
Proof. reflexivity. Qed.

(** The four keys the package uses are canonical already. *)
Lemma canonical_package_keys :
  CanonicalMIMEHeaderKey "Authorization" = "Authorization" /\
  CanonicalMIMEHeaderKey "User-Agent" = "User-Agent" /\
  CanonicalMIMEHeaderKey "Accept" = "Accept" /\
  CanonicalMIMEHeaderKey "Content-Type" = "Content-Type".
Proof. repeat split; reflexivity. Qed.

(** ** Strings *)

Lemma app_cons (a : ascii) (p s : string) : String a p +:+ s = String a (p +:+ s).
Proof. reflexivity. Qed.

Lemma app_empty_r (s : string) : s +:+ "" = s.
Proof. induction s as [|a s IH]; [reflexivity|]. rewrite app_cons, IH. reflexivity. Qed.

Lemma app_assoc' (a b c : string) : (a +:+ b) +:+ c = a +:+ (b +:+ c).
Proof. induction a as [|x a IH]; [reflexivity|]. rewrite !app_cons, IH. reflexivity. Qed.

Lemma length_app (p s : string) :
  String.length (p +:+ s) = (String.length p + String.length s)%nat.
Proof. induction p as [|a p IH]; [reflexivity|]. rewrite app_cons. simpl. lia. Qed.

Lemma app_inv_tail (p q s : string) : p +:+ s = q +:+ s -> p = q.
Proof.
  revert q. induction p as [|a p IH]; intros [|b q] E.
  - reflexivity.
  - apply (f_equal String.length) in E. rewrite !length_app in E. simpl in E. lia.
  - apply (f_equal String.length) in E. rewrite !length_app in E. simpl in E. lia.
  - rewrite !app_cons in E. injection E as -> E. f_equal. apply IH, E.
Qed.

Lemma substring_all (s : string) : substring 0 (String.length s) s = s.
Proof. induction s as [|a s IH]; [reflexivity|]. simpl. rewrite IH. reflexivity. Qed.

Lemma substring_skip (p s : string) (m : nat) :
  substring (String.length p) m (p +:+ s) = substring 0 m s.
Proof. induction p as [|a p IH]; [reflexivity|]. rewrite app_cons. simpl. exact IH. Qed.

Lemma substring_split (s : string) (n : nat) :
  (n <= String.length s)%nat ->
  s = substring 0 n s +:+ substring n (String.length s - n) s.
Proof.
  revert n. induction s as [|a s IH]; intros [|n] Hn; simpl in *.
  - reflexivity.
  - lia.
  - rewrite substring_all. reflexivity.
  - rewrite app_cons. f_equal. apply IH. lia.
Qed.

(** [HasSuffix] holds exactly of the strings that end in the suffix. *)
Lemma HasSuffix_spec (s suffix : string) :
  HasSuffix s suffix = true <-> exists p, s = p +:+ suffix.
Proof.
  unfold HasSuffix. rewrite andb_true_iff, Nat.leb_le, String.eqb_eq. split.
  - intros [Hlen Hsub].
    exists (substring 0 (String.length s - String.length suffix) s).
    pose proof (substring_split s (String.length s - String.length suffix)) as Hs.
    replace (String.length s - (String.length s - String.length suffix))%nat
      with (String.length suffix) in Hs by lia.
    rewrite Hsub in Hs. apply Hs. lia.
  - intros [p ->]. rewrite length_app. split; [lia|].
    replace (String.length p + String.length suffix - String.length suffix)%nat
      with (String.length p) by lia.
    rewrite substring_skip. apply substring_all.
Qed.

Lemma HasSuffix_app (p suffix : string) : HasSuffix (p +:+ suffix) suffix = true.
Proof. apply HasSuffix_spec. eauto. Qed.

Lemma HasSuffix_app_tail (t s1 s2 : string) :
  HasSuffix (t +:+ s2) (s1 +:+ s2) = HasSuffix t s1.
Proof.
  destruct (HasSuffix t s1) eqn:E.
  - apply HasSuffix_spec in E as [p ->]. apply HasSuffix_spec. exists p.
    apply app_assoc'.
  - destruct (HasSuffix (t +:+ s2) (s1 +:+ s2)) eqn:E'; [|reflexivity].
    apply HasSuffix_spec in E' as [p E']. rewrite <- app_assoc' in E'.
    apply app_inv_tail in E'. subst t. rewrite HasSuffix_app in E. discriminate.
Qed.

Lemma last_byte_app (p : string) (c : ascii) : last_byte (p +:+ String c "") = Some c.
Proof.
  induction p as [|a p IH]; [reflexivity|]. rewrite app_cons.
  destruct p as [|b p]; [reflexivity|]. exact IH.
Qed.

Lemma HasSuffix_last_byte (s : string) (c : ascii) :
  HasSuffix s (String c "") = true <-> last_byte s = Some c.
Proof.
  rewrite HasSuffix_spec. split.
  - intros [p ->]. apply last_byte_app.
  - induction s as [|a s IH]; [discriminate|].
    destruct s as [|b s].
    + simpl. intros [= ->]. exists "". reflexivity.
    + intros Hl. destruct (IH Hl) as [p Hp]. exists (String a p).
      rewrite app_cons, <- Hp. reflexivity.
Qed.

(** [TrimRight] leaves no byte of the cutset at the end. *)
Lemma TrimRight_last_byte (s cutset : string) (c : ascii) :
  last_byte (TrimRight s cutset) = Some c -> contains_byte cutset c = false.
Proof.
  induction s as [|a s IH]; [discriminate|]. simpl.
  destruct (TrimRight s cutset) as [|b t] eqn:E.
  - destruct (contains_byte cutset a) eqn:Ea; [discriminate|].
    simpl. intros [= <-]. exact Ea.
  - intros Hl. apply IH. exact Hl.
Qed.

Lemma TrimRight_no_slash (s : string) : HasSuffix (TrimRight s "/") "/" = false.
Proof.
  destruct (HasSuffix (TrimRight s "/") "/") eqn:E; [|reflexivity].
  apply HasSuffix_last_byte, TrimRight_last_byte in E. discriminate.
Qed.

Lemma one_slash_appended (t : string) :
  HasSuffix t "/" = false -> ends_with_one_slash (t +:+ "/") = true.
Proof.
  intros Ht. unfold ends_with_one_slash. rewrite HasSuffix_app.
  change "//" with ("/" +:+ "/"). rewrite HasSuffix_app_tail, Ht. reflexivity.
Qed.

(** ** Header maps in the store *)

Section StoreFacts.
Context {neturl : NetURL}.

Lemma header_at_assign (l : loc) (k : string) (v : list string) (s : State) :
  header_at (header_assign l k v s) (Some l) = <[k := v]> (header_at s (Some l)).
Proof. unfold header_assign, header_at. simpl. rewrite lookup_insert_eq. reflexivity. Qed.

Lemma header_at_assign_other (l l' : loc) (k : string) (v : list string) (s : State) :
  l' ≠ l -> header_at (header_assign l k v s) (Some l') = header_at s (Some l').
Proof.
  intros Hne. unfold header_assign, header_at. simpl.
  rewrite lookup_insert_ne by congruence. reflexivity.
Qed.

Lemma headers_assign_other (l l' : loc) (k : string) (v : list string) (s : State) :
  l' ≠ l -> headers (header_assign l k v s) !! l' = headers s !! l'.
Proof. intros Hne. unfold header_assign. simpl. apply lookup_insert_ne. congruence. Qed.

Lemma log_assign (l : loc) (k : string) (v : list string) (s : State) :
  log (header_assign l k v s) = log s.
Proof. reflexivity. Qed.

Lemma Request_Header_Set_some (r : Request) (key value : string) (s : State) (l : loc) :
  Header r = Some l ->
  Request_Header_Set r key value s
  = Some (header_assign l (CanonicalMIMEHeaderKey key) [value] s).
Proof. intros Hl. unfold Request_Header_Set. rewrite Hl. reflexivity. Qed.

End StoreFacts.

(** ** Construction of the client *)

Section ClientFacts.
Context {neturl : NetURL} {oauth2 : OAuth2}.

Lemma WithTrace_keeps (t : bool) : keeps_userAgent (WithTrace t) /\ keeps_Server (WithTrace t).
Proof. split; intros c; reflexivity. Qed.

Lemma WithContext_keeps (cx : option Context) :
  keeps_userAgent (WithContext cx) /\ keeps_Server (WithContext cx).
Proof. split; intros c; reflexivity. Qed.

Lemma WithLogin_keeps (u p : string) :
  keeps_userAgent (WithLogin u p) /\ keeps_Server (WithLogin u p).
Proof. split; intros c; reflexivity. Qed.

Lemma WithBaseURL_keeps_userAgent (b : string) : keeps_userAgent (WithBaseURL b).
Proof. intros c. unfold WithBaseURL. destruct (url_Parse b); reflexivity. Qed.

Lemma WithUserAgent_keeps_Server (ua : string) : keeps_Server (WithUserAgent ua).
Proof. intros c. reflexivity. Qed.

Lemma apply_options_app (pre post : list ClientOption) (c : Client) :
  apply_options (pre ++ post) c
  = match apply_options pre c with
    | inl c' => apply_options post c'
    | inr e => inr e
    end.
Proof.
  revert c. induction pre as [|o pre IH]; intros c; simpl; [reflexivity|].
  destruct (o c) as [c' [e|]]; [reflexivity|]. apply IH.
Qed.

Lemma apply_options_userAgent (opts : list ClientOption) (c c' : Client) :
  Forall keeps_userAgent opts -> apply_options opts c = inl c' ->
  userAgent c' = userAgent c.
Proof.
  intros Hall. revert c. induction Hall as [|o opts Ho _ IH]; intros c; simpl.
  - intros [= <-]. reflexivity.
  - specialize (Ho c). destruct (o c) as [c1 [e|]]; [discriminate|].
    intros Hrest. rewrite (IH _ Hrest). exact Ho.
Qed.

Lemma apply_options_Server (opts : list ClientOption) (c c' : Client) :
  Forall keeps_Server opts -> apply_options opts c = inl c' ->
  Server c' = Server c.
Proof.
  intros Hall. revert c. induction Hall as [|o opts Ho _ IH]; intros c; simpl.
  - intros [= <-]. reflexivity.
  - specialize (Ho c). destruct (o c) as [c1 [e|]]; [discriminate|].
    intros Hrest. rewrite (IH _ Hrest). exact Ho.
Qed.

(** A successful construction, field by field. *)
Lemma NewClient_inv (baseURL : string) (opts : list ClientOption) (c : Client) :
  NewClient baseURL opts = (Some c, None) ->
  exists c1,
    apply_options opts (new_Client (TrimRight baseURL "/")) = inl c1 /\
    Server c = normal_Server (Server c1) /\
    userAgent c = userAgent c1 /\
    trace c = trace c1 /\
    ctx c = Some (WithValue_HTTPClient (default Background (ctx c1))
                    (BearerAuthTransportRef HTTPDefaultTransport)) /\
    (exists inner, innerClient c = Some inner) /\
    Client_Wellness c = Some {| Version := defaultVersion |}.
Proof.
  unfold NewClient.
  destruct (apply_options opts (new_Client (TrimRight baseURL "/"))) as [c1|e];
    [|discriminate].
  intros [= <-]. exists c1. split; [reflexivity|].
  unfold normal_Server.
  destruct (ctx c1) as [cx|] eqn:Hctx; cbn -[HasSuffix String.eqb defaultServer];
    rewrite ?Hctx; cbn -[HasSuffix String.eqb defaultServer];
    destruct (String.eqb (Server c1) ""); cbn -[HasSuffix String.eqb defaultServer].
  all: match goal with |- context [HasSuffix ?x "/"] => destruct (HasSuffix x "/") end;
    cbn -[String.eqb defaultServer]; repeat split; eauto.
Qed.

Lemma NewClient_total (baseURL : string) (opts : list ClientOption) (c1 : Client) :
  apply_options opts (new_Client (TrimRight baseURL "/")) = inl c1 ->
  exists c, NewClient baseURL opts = (Some c, None).
Proof. intros Hopts. unfold NewClient. rewrite Hopts. eauto. Qed.

Lemma normal_Server_has_slash (server : string) : HasSuffix (normal_Server server) "/" = true.
Proof.
  unfold normal_Server.
  set (s' := if String.eqb server "" then defaultServer else server).
  destruct (HasSuffix s' "/") eqn:E; simpl; [exact E|]. apply HasSuffix_app.
Qed.

Lemma normal_Server_trimmed (baseURL : string) :
  normal_Server (TrimRight baseURL "/")
  = if String.eqb (TrimRight baseURL "/") "" then defaultServer
    else TrimRight baseURL "/" +:+ "/".
Proof.
  unfold normal_Server. destruct (String.eqb (TrimRight baseURL "/") "") eqn:E.
  - reflexivity.
  - rewrite TrimRight_no_slash. reflexivity.
Qed.

Lemma normal_Server_trimmed_one_slash (baseURL : string) :
  ends_with_one_slash (normal_Server (TrimRight baseURL "/")) = true.
Proof.
  rewrite normal_Server_trimmed. destruct (String.eqb (TrimRight baseURL "/") "").
  - reflexivity.
  - apply one_slash_appended, TrimRight_no_slash.
Qed.

(** X2. The server of a constructed client always ends with a slash. *)
Lemma NewClient_Server_has_slash (baseURL : string) (opts : list ClientOption) (c : Client) :
  NewClient baseURL opts = (Some c, None) -> HasSuffix (Server c) "/" = true.
Proof.
  intros Hnew. apply NewClient_inv in Hnew as (c1 & _ & -> & _).
  apply normal_Server_has_slash.
Qed.

(** With options that leave the server alone, it ends with exactly one slash:
    the trimmed base URL and a slash, or the default server. *)
Lemma NewClient_Server_positional (baseURL : string) (opts : list ClientOption) (c : Client) :
  Forall keeps_Server opts ->
  NewClient baseURL opts = (Some c, None) ->
  Server c = (if String.eqb (TrimRight baseURL "/") "" then defaultServer
              else TrimRight baseURL "/" +:+ "/")
  /\ ends_with_one_slash (Server c) = true.
Proof.
  intros Hkeep Hnew. apply NewClient_inv in Hnew as (c1 & Hopts & -> & _).
  rewrite (apply_options_Server _ _ _ Hkeep Hopts). simpl.
  split; [apply normal_Server_trimmed | apply normal_Server_trimmed_one_slash].
Qed.

Lemma NewClient_empty_baseURL (opts : list ClientOption) (c : Client) :
  Forall keeps_Server opts ->
  NewClient "" opts = (Some c, None) ->
  Server c = "https://infosight.hpe.com/apis/".
Proof.
  intros Hkeep Hnew. destruct (NewClient_Server_positional _ _ _ Hkeep Hnew) as [-> _].
  reflexivity.
Qed.

(** X1. The base URL given to [NewClient] is stored with exactly one trailing
    slash, and an empty one (or one of slashes only) gives the default
    server, as long as no option writes the server. *)
Theorem NewClient_base_URL_one_slash
    (baseURL : string) (opts : list ClientOption) (c : Client) :
  Forall keeps_Server opts ->
  NewClient baseURL opts = (Some c, None) ->
  ends_with_one_slash (Server c) = true /\
  (TrimRight baseURL "/" = "" -> Server c = "https://infosight.hpe.com/apis/") /\
  (TrimRight baseURL "/" <> "" -> Server c = TrimRight baseURL "/" +:+ "/").
Proof.
  intros Hkeep Hnew. destruct (NewClient_Server_positional _ _ _ Hkeep Hnew) as [Hs Hone].
  split; [exact Hone|]. split; intros Ht.
  - rewrite Hs, Ht. reflexivity.
  - rewrite Hs. apply String.eqb_neq in Ht. rewrite Ht. reflexivity.
Qed.


(** The base-URL override fails exactly when the URL does not parse, with the
    parser's error. *)
Lemma WithBaseURL_error (baseURL : string) (c : Client) (e : error) :
  snd (WithBaseURL baseURL c) = Some e <-> url_Parse baseURL = inl e.
Proof.
  unfold WithBaseURL. destruct (url_Parse baseURL) as [e'|u]; simpl.
  - split; intros [= ->]; reflexivity.
  - split; discriminate.
Qed.

End ClientFacts.


(** ** [Client.do] *)

Section DoFacts.
Context {neturl : NetURL}.

(** Lines 263-267 in one step: they need a context and a header map, and
    then assign the three headers into the map of [req]. *)
Lemma do_prepare_spec (c : Client) (req : Request) (s : State) :
  do_prepare c req s
  = match ctx c, Header req with
    | Some _, Some l =>
        Some (header_assign l "Content-Type" ["application/json"]
                (header_assign l "Accept" ["application/json"]
                   (header_assign l "User-Agent" [userAgent c] s)))
    | _, _ => None
    end.
Proof.
  unfold do_prepare, Request_WithContext, Request_Header_Set.
  destruct (ctx c); destruct (Header req); reflexivity.
Qed.

Lemma do_prepare_total (c : Client) (req : Request) (s : State) :
  ctx c <> None -> Header req <> None -> exists s1, do_prepare c req s = Some s1.
Proof.
  intros Hc Hh. rewrite do_prepare_spec.
  destruct (ctx c); [|congruence]. destruct (Header req); [|congruence]. eauto.
Qed.

(** The header map of the request as the inner client sees it, and what the
    rest of the store looks like. *)
Lemma do_prepare_headers (c : Client) (req : Request) (s s1 : State) :
  do_prepare c req s = Some s1 ->
  exists l, Header req = Some l /\
    header_at s1 (Header req)
    = <["Content-Type" := ["application/json"]]>
        (<["Accept" := ["application/json"]]>
           (<["User-Agent" := [userAgent c]]> (header_at s (Header req)))) /\
    (forall l', l' ≠ l -> headers s1 !! l' = headers s !! l') /\
    log s1 = log s.
Proof.
  rewrite do_prepare_spec. destruct (ctx c); [|discriminate].
  destruct (Header req) as [l|]; [|discriminate]. intros [= <-]. exists l.
  split; [reflexivity|]. split; [|split].
  - rewrite !header_at_assign. reflexivity.
  - intros l' Hne. rewrite !headers_assign_other by exact Hne. reflexivity.
  - reflexivity.
Qed.

Lemma do_prepare_Get (c : Client) (req : Request) (s s1 : State) :
  do_prepare c req s = Some s1 ->
  Request_Header_Get req "User-Agent" s1 = userAgent c /\
  Request_Header_Get req "Accept" s1 = "application/json" /\
  Request_Header_Get req "Content-Type" s1 = "application/json".
Proof.
  intros Hp. destruct (do_prepare_headers _ _ _ _ Hp) as (l & _ & Hh & _).
  unfold Request_Header_Get, Header_Get. rewrite Hh.
  change (CanonicalMIMEHeaderKey "User-Agent") with "User-Agent".
  change (CanonicalMIMEHeaderKey "Accept") with "Accept".
  change (CanonicalMIMEHeaderKey "Content-Type") with "Content-Type".
  repeat split.
  - rewrite lookup_insert_ne by discriminate. rewrite lookup_insert_ne by discriminate.
    rewrite lookup_insert_eq. reflexivity.
  - rewrite lookup_insert_ne by discriminate. rewrite lookup_insert_eq. reflexivity.
  - rewrite lookup_insert_eq. reflexivity.
Qed.

(** [do] calls the inner client on [req] itself, in the store [do_prepare]
    leaves; the context of [req] is the one it came with. *)
Lemma do_inv {httputil : HTTPUtil} (c : Client) (req : Request) (s : State)
    (out : (option Response * option error) * State) :
  do c req s = Some out ->
  exists inner s1,
    innerClient c = Some inner /\ do_prepare c req s = Some s1 /\
    fst out = fst (inner req s1) /\
    snd out = (if trace c then do_trace req (fst (fst (inner req s1))) (snd (inner req s1))
               else snd (inner req s1)).
Proof.
  unfold do. destruct (do_prepare c req s) as [s1|]; [|discriminate].
  destruct (innerClient c) as [inner|]; [|discriminate].
  destruct (inner req s1) as [[r e] s2] eqn:E. intros [= <-].
  exists inner, s1. rewrite E. auto.
Qed.

Lemma do_total {httputil : HTTPUtil} (c : Client) (req : Request) (s : State) :
  ctx c <> None -> Header req <> None -> innerClient c <> None ->
  exists out, do c req s = Some out.
Proof.
  intros Hc Hh Hi. destruct (do_prepare_total c req s Hc Hh) as [s1 Hs1].
  unfold do. rewrite Hs1. destruct (innerClient c) as [inner|]; [|congruence].
  destruct (inner req s1) as [[r e] s2]. eauto.
Qed.

(** X3. Whenever [do] reaches its inner client, the request it hands over reads
    the client's user agent under [User-Agent] and [application/json] under
    [Accept] and [Content-Type]; the headers it had under other keys, and
    every other header map of the store, are as they were. *)
Theorem do_sets_standard_headers {httputil : HTTPUtil}
    (c : Client) (req : Request) (s : State)
    (out : (option Response * option error) * State) :
  do c req s = Some out ->
  exists inner s1,
    innerClient c = Some inner /\ fst out = fst (inner req s1) /\
    Request_Header_Get req "User-Agent" s1 = userAgent c /\
    Request_Header_Get req "Accept" s1 = "application/json" /\
    Request_Header_Get req "Content-Type" s1 = "application/json" /\
    (forall k, k ≠ "User-Agent" -> k ≠ "Accept" -> k ≠ "Content-Type" ->
       header_at s1 (Header req) !! k = header_at s (Header req) !! k) /\
    (forall l l', Header req = Some l -> l' ≠ l -> headers s1 !! l' = headers s !! l').
Proof.
  intros Hout. apply do_inv in Hout as (inner & s1 & Hi & Hp & Hfst & _).
  exists inner, s1. destruct (do_prepare_Get _ _ _ _ Hp) as (Hua & Hacc & Hct).
  destruct (do_prepare_headers _ _ _ _ Hp) as (l & Hl & Hh & Hother & _).
  repeat split; try assumption.
  - intros k H1 H2 H3. rewrite Hh. rewrite !lookup_insert_ne by congruence. reflexivity.
  - intros l0 l' Hl0 Hne. apply Hother. congruence.
Qed.


End DoFacts.

(** Tracing with dumps that fail: the same response, the same nil error and
    the same store as without tracing; nothing is logged. *)
Example do_with_failing_dumps :
  do (httputil := failing_dumps)
     (with_trace true
        (constructed (NewClient (oauth2 := canned response_200) "https://example.com/api" [])))
     issues_request issues_state
  = Some ((Some response_200, None), issues_state_sent)
  /\ do (httputil := plain_dumps)
       (with_trace false
          (constructed (NewClient (oauth2 := canned response_200) "https://example.com/api" [])))
       issues_request issues_state
     = Some ((Some response_200, None), issues_state_sent).
Proof. split; reflexivity. Qed.

(** Tracing with dumps that succeed adds one line to the log. *)
Example do_with_tracing :
  option_map (fun out => (fst out, List.length (log (snd out))))
    (do (httputil := plain_dumps)
       (with_trace true
          (constructed (NewClient (oauth2 := canned response_200) "https://example.com/api" [])))
       issues_request issues_state)
  = Some ((Some response_200, None), 1%nat).
Proof. reflexivity. Qed.

Example NewRequest_issues :
  NewRequest (neturl := verbatim_url) "GET" issues_URL empty_state
  = (inl issues_request, issues_state).
Proof. reflexivity. Qed.

(** C10. A client constructed with options that leave the user agent alone
    hands every request to its inner client with the single [User-Agent]
    value [go-infosight]; [do] does hand the request over whenever the
    request has a header map. *)
Theorem do_default_user_agent {neturl : NetURL} {httputil : HTTPUtil} {oauth2 : OAuth2}
    (baseURL : string) (opts : list ClientOption) (c : Client)
    (req : Request) (s : State) :
  Forall keeps_userAgent opts ->
  NewClient baseURL opts = (Some c, None) ->
  (Header req <> None -> do c req s <> None) /\
  (forall out, do c req s = Some out ->
     exists inner s1,
       innerClient c = Some inner /\ do_prepare c req s = Some s1 /\
       fst out = fst (inner req s1) /\
       header_at s1 (Header req) !! "User-Agent" = Some ["go-infosight"] /\
       Request_Header_Get req "User-Agent" s1 = "go-infosight").
Proof.
  intros Hkeep Hnew.
  apply NewClient_inv in Hnew as (c1 & Hopts & _ & Hua & _ & Hctx & [inner Hinner] & _).
  rewrite (apply_options_userAgent _ _ _ Hkeep Hopts) in Hua. simpl in Hua.
  split.
  - intros Hh. destruct (do_total c req s) as [out Hout]; try congruence.
  - intros out Hout. apply do_inv in Hout as (inner' & s1 & Hi & Hp & Hfst & _).
    exists inner', s1. repeat split; try assumption.
    + destruct (do_prepare_headers _ _ _ _ Hp) as (l & _ & -> & _).
      rewrite lookup_insert_ne by discriminate. rewrite lookup_insert_ne by discriminate.
      rewrite lookup_insert_eq, Hua. reflexivity.
    + destruct (do_prepare_Get _ _ _ _ Hp) as [-> _]. exact Hua.
Qed.

(** C10, at a client constructed with a trace flag and a login, and the
    request [GetIssues] builds. *)
Lemma do_default_user_agent_witness :
  exists out,
    do (httputil := plain_dumps)
       (constructed (NewClient (oauth2 := canned response_200) "https://example.com/api"
                       [WithTrace true; WithLogin "key" "secret"]))
       issues_request issues_state = Some out /\
    exists inner s1,
      innerClient (constructed (NewClient (oauth2 := canned response_200)
                                  "https://example.com/api"
                                  [WithTrace true; WithLogin "key" "secret"])) = Some inner /\
      fst out = fst (inner issues_request s1) /\
      Request_Header_Get issues_request "User-Agent" s1 = "go-infosight".
Proof.
  destruct (do_default_user_agent (neturl := verbatim_url) (httputil := plain_dumps)
              (oauth2 := canned response_200)
              "https://example.com/api" [WithTrace true; WithLogin "key" "secret"]
              (constructed (NewClient (oauth2 := canned response_200)
                              "https://example.com/api"
                              [WithTrace true; WithLogin "key" "secret"]))
              issues_request issues_state) as [Hruns Hsent].
  - constructor; [apply WithTrace_keeps | constructor; [apply WithLogin_keeps | constructor]].
  - reflexivity.
  - destruct (do (constructed (NewClient (oauth2 := canned response_200)
                                 "https://example.com/api"
                                 [WithTrace true; WithLogin "key" "secret"]))
                issues_request issues_state) as [out|] eqn:E.
    + exists out. split; [reflexivity|].
      destruct (Hsent out eq_refl) as (inner & s1 & Hi & _ & Hf & _ & Hg).
      exists inner, s1. auto.
    + exfalso. apply Hruns; [discriminate | reflexivity].
Defined.

(** The context of a constructed client is never the background context a
    new request carries. *)
Lemma NewClient_ctx {neturl : NetURL} {oauth2 : OAuth2}
    (baseURL : string) (opts : list ClientOption) (c : Client) :
  NewClient baseURL opts = (Some c, None) ->
  exists parent transport, ctx c = Some (WithValue_HTTPClient parent transport).
Proof. intros Hnew. apply NewClient_inv in Hnew as (c1 & _ & _ & _ & _ & -> & _). eauto. Qed.

(** C2. The three headers are set before the inner client is called (see
    [do_sets_standard_headers]), but the request the inner client is called
    with still carries its own context, not the client's.  Here the client is
    constructed with default settings, the request is the one [GetIssues]
    builds, and the inner client reports the context it sees. *)
Example do_passes_the_requests_own_context :
  ctx (constructed (NewClient (oauth2 := reports_context) "https://example.com/api" []))
  = Some (WithValue_HTTPClient Background (BearerAuthTransportRef HTTPDefaultTransport))
  /\ Request_ctx issues_request = Background
  /\ option_map (fun out => option_map Response_Status (fst (fst out)))
       (do (httputil := plain_dumps)
          (constructed (NewClient (oauth2 := reports_context) "https://example.com/api" []))
          issues_request issues_state)
     = Some (Some "context.Background").
Proof. repeat split; reflexivity. Qed.

(** ** The transport shim *)

Section ShimFacts.
Context {neturl : NetURL}.

Lemma make_Header_spec (s : State) (l : loc) (s1 : State) :
  make_Header s = (l, s1) ->
  (l ∉ dom (headers s)) /\ header_at s1 (Some l) = ∅ /\
  (forall l', l' ≠ l -> headers s1 !! l' = headers s !! l') /\ log s1 = log s.
Proof.
  unfold make_Header. intros [= <- <-]. split; [apply is_fresh|].
  split; [|split].
  - unfold header_at. simpl. rewrite lookup_insert_eq. reflexivity.
  - intros l' Hne. simpl. apply lookup_insert_ne. congruence.
  - reflexivity.
Qed.

(** Assigning every entry of [m] into the map at [l2] leaves there the
    entries of [m] over what the map held, and nothing else changes. *)
Lemma copy_entries (l2 : loc) (s1 : State) (m : HeaderMap) :
  let s2 := map_fold (fun k v st => header_assign l2 k v st) s1 m in
  header_at s2 (Some l2) = m ∪ header_at s1 (Some l2) /\
  (forall l', l' ≠ l2 -> headers s2 !! l' = headers s1 !! l') /\
  log s2 = log s1.
Proof.
  apply (map_fold_weak_ind
           (fun (st : State) (m : HeaderMap) =>
              header_at st (Some l2) = m ∪ header_at s1 (Some l2) /\
              (forall l', l' ≠ l2 -> headers st !! l' = headers s1 !! l') /\
              log st = log s1)).
  - split; [|split]; try reflexivity. rewrite (left_id_L ∅ (∪)). reflexivity.
  - intros k v m' st Hfresh (Hat & Hother & Hlog). split; [|split].
    + rewrite header_at_assign, Hat. apply insert_union_l.
    + intros l' Hne. rewrite headers_assign_other by exact Hne. apply Hother, Hne.
    + exact Hlog.
Qed.

(** [cloneRequest]: equal fields, a header map at a location that was not in
    use, holding the entries of the original; the store is otherwise as it
    was, the original's map included. *)
Lemma cloneRequest_spec (r r2 : Request) (s s2 : State) :
  cloneRequest r s = (r2, s2) ->
  exists l2,
    Header r2 = Some l2 /\ (l2 ∉ dom (headers s)) /\
    Method r2 = Method r /\ Request_URL r2 = Request_URL r /\
    Host r2 = Host r /\ Request_ctx r2 = Request_ctx r /\
    header_at s2 (Some l2) = header_at s (Header r) /\
    (forall l', l' ≠ l2 -> headers s2 !! l' = headers s !! l') /\
    log s2 = log s.
Proof.
  unfold cloneRequest. destruct (make_Header s) as [l2 s1] eqn:Hmake.
  intros [= <- <-]. exists l2.
  destruct (make_Header_spec _ _ _ Hmake) as (Hfresh & Hempty & Hother & Hlog).
  destruct (copy_entries l2 s1 (header_at s (Header r))) as (Hat & Hother' & Hlog').
  repeat split; try reflexivity; try assumption.
  - rewrite Hat, Hempty. apply (right_id_L ∅ (∪)).
  - intros l' Hne. rewrite Hother' by exact Hne. apply Hother, Hne.
  - congruence.
Qed.

(** What the shim hands to the wrapped transport: always a request (there is
    no panic), a copy of [req] whose header map is a new one with the entries
    of the original and the single [Authorization] value [rewritten_auth]. *)
Lemma RoundTrip_request_spec (req : Request) (s : State) :
  exists req2 s2 l2,
    RoundTrip_request req s = Some (req2, s2) /\
    Header req2 = Some l2 /\ (l2 ∉ dom (headers s)) /\
    Method req2 = Method req /\ Request_URL req2 = Request_URL req /\
    Host req2 = Host req /\ Request_ctx req2 = Request_ctx req /\
    header_at s2 (Some l2)
    = <["Authorization" := [rewritten_auth (Request_Header_Get req "Authorization" s)]]>
        (header_at s (Header req)) /\
    (forall l', l' ≠ l2 -> headers s2 !! l' = headers s !! l') /\
    log s2 = log s.
Proof.
  unfold RoundTrip_request. fold (rewritten_auth (Request_Header_Get req "Authorization" s)).
  destruct (cloneRequest req s) as [req2 s1] eqn:Hclone.
  destruct (cloneRequest_spec _ _ _ _ Hclone)
    as (l2 & Hh & Hfresh & Hm & Hu & Hho & Hc & Hat & Hother & Hlog).
  rewrite (Request_Header_Set_some _ _ _ _ _ Hh).
  change (CanonicalMIMEHeaderKey "Authorization") with "Authorization".
  eexists _, _, l2. split; [reflexivity|].
  repeat split; try assumption.
  - rewrite header_at_assign, Hat. reflexivity.
  - intros l' Hne. rewrite headers_assign_other by exact Hne. apply Hother, Hne.
Qed.

Lemma HasPrefix_app (p s : string) : HasPrefix (p +:+ s) p = true.
Proof.
  unfold HasPrefix. rewrite length_app. apply andb_true_iff. split.
  - apply Nat.leb_le. lia.
  - apply String.eqb_eq.
    induction p as [|a p IH]; [destruct s; reflexivity|].
    rewrite app_cons. simpl. rewrite IH. reflexivity.
Qed.

Lemma slice_from_app (p s : string) : slice_from (String.length p) (p +:+ s) = s.
Proof.
  unfold slice_from. rewrite substring_skip, length_app.
  replace (String.length p + String.length s - String.length p)%nat
    with (String.length s) by lia.
  apply substring_all.
Qed.

Lemma rewritten_auth_BearerToken (value : string) :
  rewritten_auth ("BearerToken " +:+ value) = "Bearer " +:+ value.
Proof.
  unfold rewritten_auth. rewrite HasPrefix_app.
  change 12%nat with (String.length "BearerToken "). rewrite slice_from_app. reflexivity.
Qed.

(** A request whose [Authorization] reads as a non-empty string has a header
    map, and that map is in the store. *)
Lemma Get_nonempty_allocated (req : Request) (s : State) (key : string) :
  Request_Header_Get req key s <> "" ->
  exists l, Header req = Some l /\ l ∈ dom (headers s).
Proof.
  unfold Request_Header_Get, Header_Get, header_at. intros Hget.
  destruct (Header req) as [l|].
  - exists l. split; [reflexivity|]. apply elem_of_dom.
    destruct (headers s !! l) as [m|]; [eauto|].
    simpl in Hget. rewrite lookup_empty in Hget. congruence.
  - rewrite lookup_empty in Hget. congruence.
Qed.

(** C4. For a request whose [Authorization] header reads
    [BearerToken <value>], the shim calls the wrapped transport with a
    request whose only [Authorization] value is [Bearer <value>], whose other
    headers and whose other fields are those of the original, and whose
    header map is a new object, at a location that was not in use; the
    original's map, and every map that was in the store, is left as it
    was. *)
Theorem RoundTrip_rewrites_BearerToken
    (t : BearerAuthTransport) (req : Request) (s : State) (value : string) :
  Request_Header_Get req "Authorization" s = "BearerToken " +:+ value ->
  exists req2 s2 l l2,
    RoundTrip t req s = Some (rt t req2 s2) /\
    Header req = Some l /\ Header req2 = Some l2 /\ l2 ≠ l /\
    (l2 ∉ dom (headers s)) /\
    header_at s2 (Header req2) !! "Authorization" = Some ["Bearer " +:+ value] /\
    Request_Header_Get req2 "Authorization" s2 = "Bearer " +:+ value /\
    (forall k, k ≠ "Authorization" ->
       header_at s2 (Header req2) !! k = header_at s (Header req) !! k) /\
    Method req2 = Method req /\ Request_URL req2 = Request_URL req /\
    Host req2 = Host req /\ Request_ctx req2 = Request_ctx req /\
    header_at s2 (Header req) = header_at s (Header req) /\
    (forall l', l' ∈ dom (headers s) -> headers s2 !! l' = headers s !! l').
Proof.
  intros Hauth.
  destruct (Get_nonempty_allocated req s "Authorization") as (l & Hl & Hdom).
  { rewrite Hauth. discriminate. }
  destruct (RoundTrip_request_spec req s)
    as (req2 & s2 & l2 & Hrt & Hh2 & Hfresh & Hm & Hu & Hho & Hc & Hat & Hother & _).
  rewrite Hauth, rewritten_auth_BearerToken in Hat.
  assert (Hne : l2 ≠ l) by (intros ->; contradiction).
  exists req2, s2, l, l2. unfold RoundTrip. rewrite Hrt, Hh2, Hat.
  repeat split; try assumption.
  - apply lookup_insert_eq.
  - unfold Request_Header_Get, Header_Get. rewrite Hh2, Hat.
    change (CanonicalMIMEHeaderKey "Authorization") with "Authorization".
    rewrite lookup_insert_eq. reflexivity.
  - intros k Hk. apply lookup_insert_ne. congruence.
  - rewrite Hl. unfold header_at. rewrite Hother by congruence. reflexivity.
  - intros l' Hl'. apply Hother. intros ->. contradiction.
Qed.

(** C3, amended. Where the [Authorization] header does not start with
    [BearerToken ], the request handed on equals the original in every field
    and in every header other than [Authorization]; its [Authorization]
    header holds exactly one value, the first one of the original, or the
    empty string when the original has none.  So the headers are those of the
    original exactly when the original has a single [Authorization] value. *)
Theorem RoundTrip_other_schemes (t : BearerAuthTransport) (req : Request) (s : State) :
  HasPrefix (Request_Header_Get req "Authorization" s) "BearerToken " = false ->
  exists req2 s2,
    RoundTrip t req s = Some (rt t req2 s2) /\
    RoundTrip_request req s = Some (req2, s2) /\
    Method req2 = Method req /\ Request_URL req2 = Request_URL req /\
    Host req2 = Host req /\ Request_ctx req2 = Request_ctx req /\
    header_at s2 (Header req2)
    = <["Authorization" := [Request_Header_Get req "Authorization" s]]>
        (header_at s (Header req)) /\
    (header_at s2 (Header req2) = header_at s (Header req) <->
     exists v, header_at s (Header req) !! "Authorization" = Some [v]).
Proof.
  intros Hprefix.
  destruct (RoundTrip_request_spec req s)
    as (req2 & s2 & l2 & Hrt & Hh2 & _ & Hm & Hu & Hho & Hc & Hat & _).
  unfold rewritten_auth in Hat. rewrite Hprefix in Hat.
  exists req2, s2. unfold RoundTrip. rewrite Hrt, Hh2, Hat. repeat split; try assumption.
  - intros Heq. apply (f_equal (fun m => m !! "Authorization")) in Heq.
    rewrite lookup_insert_eq in Heq. eauto.
  - intros [v Hv]. apply insert_id.
    unfold Request_Header_Get, Header_Get.
    change (CanonicalMIMEHeaderKey "Authorization") with "Authorization".
    rewrite Hv. reflexivity.
Qed.

End ShimFacts.

(** ** Decoding of the envelopes *)

Section DecodingFacts.
Context {strconv : StrConv}.

Lemma is_field_exclusive (k a b : string) :
  foldName a <> foldName b -> is_field k a = true -> is_field k b = false.
Proof.
  unfold is_field. intros Hne Ha. apply String.eqb_eq in Ha.
  apply String.eqb_neq. congruence.
Qed.





(** The member is [null] or an array, whose elements are decoded one by one. *)
Lemma decode_Data_shape (v : json) (d : slice any) :
  decode_Data v None = Ok d ->
  (v = JNull /\ d = None) \/
  (exists xs l, v = JArray xs /\ d = Some l /\
     decode_elems (fun x _ => valueInterface x) ANil xs [] = Ok l).
Proof.
  unfold decode_Data, decode_slice. destruct v; try discriminate.
  - intros [= <-]. left. auto.
  - simpl. destruct (decode_elems _ ANil elems []) as [l|e] eqn:E; simpl; [|discriminate].
    intros [= <-]. right. eauto.
Qed.

Lemma decode_ptr_shape {T} (dec : json -> T -> result T) (zero : T)
    (v : json) (cur d : option T) :
  decode_ptr dec zero v cur = Ok d ->
  match v with
  | JNull => d = None
  | _ => d <> None
  end.
Proof.
  unfold decode_ptr, bind.
  destruct v; first [ intros [= <-]; reflexivity
                    | destruct (dec _ _); intros [= <-]; discriminate ].
Qed.

Lemma fold_members_Fault (ms : list (string * json)) (cur f : FaultResponse) :
  decode_FaultResponse (JObject ms) cur = Ok f ->
  match last_member "fault" ms with
  | None => FaultResponse_Fault f = FaultResponse_Fault cur
  | Some JNull => FaultResponse_Fault f = None
  | Some _ => FaultResponse_Fault f <> None
  end.
Proof.
  unfold decode_FaultResponse, decode_struct.
  revert cur. induction ms as [|[k v] rest IH]; intros cur; simpl.
  - intros [= <-]. reflexivity.
  - destruct (is_field k "fault") eqn:Hfault.
    + rewrite (is_field_exclusive k "fault" "Status") by (discriminate || assumption).
      rewrite (is_field_exclusive k "fault" "StatusCode") by (discriminate || assumption).
      destruct (decode_ptr decode_Fault zero_Fault v _) as [d|e] eqn:Hd; simpl; [|discriminate].
      intros Hrest. specialize (IH _ Hrest).
      destruct (last_member "fault" rest); [exact IH|]. simpl in IH. rewrite IH.
      exact (decode_ptr_shape _ _ _ _ _ Hd).
    + destruct (is_field k "Status").
      * destruct (decode_string v _) as [st|e]; simpl; [|discriminate].
        intros Hrest. specialize (IH _ Hrest).
        destruct (last_member "fault" rest); exact IH.
      * destruct (is_field k "StatusCode").
        -- destruct (decode_int v _) as [n|e]; simpl; [|discriminate].
           intros Hrest. specialize (IH _ Hrest).
           destruct (last_member "fault" rest); exact IH.
        -- simpl. intros Hrest. specialize (IH _ Hrest).
           destruct (last_member "fault" rest); exact IH.
Qed.

End DecodingFacts.

(** ** [Wellness.GetObjectSet] *)

Section WellnessFacts.
Context {neturl : NetURL} {strconv : StrConv} {httputil : HTTPUtil}.

Lemma NewRequest_GET (rawurl : string) (s : State) :
  NewRequest "GET" rawurl s
  = match url_Parse rawurl with
    | inl e => (inr e, s)
    | inr u =>
        (inl {| Method := "GET"; Request_URL := u;
                Header := Some (fresh (dom (headers s)));
                Host := URL_Host u; Request_ctx := Background |},
         set_headers s (<[fresh (dom (headers s)) := ∅]> (headers s)))
    end.
Proof. unfold NewRequest. simpl. destruct (url_Parse rawurl); reflexivity. Qed.

(** X4. The fault envelope of a response carries the response's status line and
    code; its message is the fault string when the body has a fault, and the
    status line otherwise. *)
Lemma NewFaultResponse_ok (r : Response) (f : FaultResponse) :
  NewFaultResponse r = (Some f, None) ->
  FaultResponse_Status f = Response_Status r /\
  FaultResponse_StatusCode f = StatusCode r /\
  FaultResponse_Error f = match FaultResponse_Fault f with
                          | Some fault => FaultString fault
                          | None => Response_Status r
                          end.
Proof.
  unfold NewFaultResponse.
  destruct (Decode decode_FaultResponse (Body r) zero_FaultResponse) as [d|e];
    [|discriminate].
  intros [= <-]. unfold FaultResponse_Error. simpl. auto.
Qed.

Lemma NewFaultResponse_cases (r : Response) :
  (exists f, NewFaultResponse r = (Some f, None)) \/
  (exists e, NewFaultResponse r = (None, Some (JSONError e))).
Proof.
  unfold NewFaultResponse.
  destruct (Decode decode_FaultResponse (Body r) zero_FaultResponse); eauto.
Qed.

(** What line 42 returns for a status above 399 and a body that decodes: the
    fault envelope as the first result, and a nil error. *)
Lemma GetObjectSet_fault_is_the_result
    (c : Client) (w : Wellness) (objectSet : string) (s s1 s2 : State)
    (req : Request) (r : Response) (f : FaultResponse) :
  NewRequest "GET" (queryURL c w objectSet) s = (inl req, s1) ->
  do c req s1 = Some ((Some r, None), s2) ->
  (400 <= StatusCode r)%Z ->
  NewFaultResponse r = (Some f, None) ->
  GetObjectSet c w objectSet s = Some ((VFaultResponse (Some f), None), s2).
Proof.
  intros Hreq Hdo Hstatus Hfault. unfold GetObjectSet. rewrite Hreq, Hdo. simpl.
  destruct (399 <? StatusCode r)%Z eqn:E; [|apply Z.ltb_ge in E; lia].
  rewrite Hfault. reflexivity.
Qed.


(** C7, amended. When the composed URL parses, a GET request for it is built
    and handed to [do], and the result is made of what [do] returns; when it
    does not parse, [GetObjectSet] returns the parser's error, no result, and
    the store as it was: no request is made.  [GetIssues] is [GetObjectSet]
    at the name [issues]. *)
Theorem GetObjectSet_request (c : Client) (w : Wellness) (objectSet : string) (s : State) :
  match url_Parse (Server c +:+ "wellness/" +:+ Version w +:+ "/" +:+ objectSet
                     +:+ "?domain=urn:nimble") with
  | inr u =>
      exists req s1,
        NewRequest "GET"
          (Server c +:+ "wellness/" +:+ Version w +:+ "/" +:+ objectSet
             +:+ "?domain=urn:nimble") s = (inl req, s1) /\
        Method req = "GET" /\ Request_URL req = u /\
        GetObjectSet c w objectSet s = GetObjectSet_response (do c req s1)
  | inl e => GetObjectSet c w objectSet s = Some ((VNil, Some e), s)
  end
  /\ GetIssues c w s = GetObjectSet c w "issues" s.
Proof.
  split; [|reflexivity].
  unfold GetObjectSet, queryURL. rewrite NewRequest_GET.
  destruct (url_Parse _) as [e|u]; [reflexivity|].
  eexists _, _. repeat split; reflexivity.
Qed.

End WellnessFacts.


(** C1, at the second scenario of the specification: HTTP 403 with the body
    [{"fault":{"faultstring":"forbidden"}}].  The fault envelope, whose
    message is [forbidden], comes back as the result; the error is nil. *)
Example GetIssues_returns_the_fault_as_result :
  option_map fst
    (GetIssues (strconv := literal_floats) (httputil := plain_dumps)
       (constructed (NewClient (oauth2 := canned response_403) "https://example.com/api" []))
       {| Version := "v1" |} empty_state)
  = Some (VFaultResponse
            (Some {| FaultResponse_Status := "403 Forbidden";
                     FaultResponse_StatusCode := 403;
                     FaultResponse_Fault :=
                       Some {| FaultString := "forbidden"; Detail := None |} |}),
          None)
  /\ FaultResponse_Error
       {| FaultResponse_Status := "403 Forbidden";
          FaultResponse_StatusCode := 403;
          FaultResponse_Fault := Some {| FaultString := "forbidden"; Detail := None |} |}
     = "forbidden".
Proof. split; reflexivity. Qed.

(** C7 fails at a name with a control character (DEL): the URL does not
    parse, and no request is built. *)
Lemma GetObjectSet_issues_GET_counterexample :
  ~ GetObjectSet_issues_GET (strconv := literal_floats) (httputil := plain_dumps)
      (constructed (NewClient (oauth2 := canned response_200) "https://example.com/api" []))
      {| Version := "v1" |} (String "127" "") empty_state.
Proof. intros (req & s1 & Hreq & _). discriminate Hreq. Qed.

(** C5: a base-URL override with two trailing slashes is stored as it is. *)
Example NewClient_override_keeps_slashes :
  Server (constructed (NewClient (neturl := verbatim_url) (oauth2 := canned response_200)
                         "" [WithBaseURL "https://example.com/api//"]))
  = "https://example.com/api//"
  /\ ends_with_one_slash
       (Server (constructed (NewClient (neturl := verbatim_url) (oauth2 := canned response_200)
                               "" [WithBaseURL "https://example.com/api//"]))) = false
  /\ fst (NewClient (neturl := verbatim_url) (oauth2 := canned response_200)
            "" [WithBaseURL "https://example.com/api//"])
     = Some (constructed (NewClient (neturl := verbatim_url) (oauth2 := canned response_200)
                            "" [WithBaseURL "https://example.com/api//"])).
Proof. repeat split; reflexivity. Qed.

(** C4, at a request with the credential [BearerToken abc123] and an
    [Accept] header. *)
Lemma RoundTrip_rewrites_BearerToken_witness :
  exists (req2 : @Request verbatim_url) (s2 : State),
    RoundTrip (shim_over response_200) token_request token_state
    = Some ((Some response_200, None), s2) /\
    Request_Header_Get req2 "Authorization" s2 = "Bearer abc123" /\
    Request_Header_Get req2 "Accept" s2 = "application/json" /\
    Request_Header_Get token_request "Authorization" s2 = "BearerToken abc123".
Proof.
  destruct (RoundTrip_rewrites_BearerToken
              (shim_over response_200) token_request token_state "abc123" eq_refl)
    as (req2 & s2 & l & l2 & Hrt & Hl & Hl2 & Hne & _ & Hauth & Hget & Hothers
        & _ & _ & _ & _ & Horig & _).
  exists req2, s2. split; [exact Hrt|]. split; [exact Hget|]. split.
  - unfold Request_Header_Get, Header_Get.
    change (CanonicalMIMEHeaderKey "Accept") with "Accept".
    rewrite (Hothers "Accept") by discriminate. reflexivity.
  - unfold Request_Header_Get. rewrite Horig. reflexivity.
Defined.

(** C3, amended, at a request without any header: the request handed on has
    the empty [Authorization] value and nothing else. *)
Lemma RoundTrip_other_schemes_witness :
  exists req2 s2,
    RoundTrip_request issues_request issues_state = Some (req2, s2) /\
    header_at s2 (Header req2) = {[ "Authorization" := [""] ]}.
Proof.
  destruct (RoundTrip_other_schemes (shim_over response_200)
              issues_request issues_state eq_refl)
    as (req2 & s2 & _ & Hrt & _ & _ & _ & _ & Hat & _).
  exists req2, s2. split; [exact Hrt|]. rewrite Hat. reflexivity.
Defined.

(** C3 fails at a request without an [Authorization] header: the request
    handed on has one, with the empty string as its value. *)
Lemma shim_passes_through_counterexample :
  ~ shim_passes_through (shim_over response_200) issues_request issues_state.
Proof.
  intros Hpass.
  destruct Hpass as (req2 & s2 & _ & Hrt & _ & _ & _ & _ & Hhdr); [reflexivity|].
  destruct (RoundTrip_request_spec issues_request issues_state)
    as (r & s' & l2 & Hrt' & Hh2 & _ & _ & _ & _ & _ & Hat & _).
  rewrite Hrt in Hrt'. injection Hrt' as <- <-. rewrite Hh2, Hat in Hhdr.
  apply (f_equal (fun m => m !! "Authorization")) in Hhdr.
  rewrite lookup_insert_eq in Hhdr. discriminate Hhdr.
Qed.

(** ** Further examples *)

(** X1, at a base URL with three trailing slashes. *)
Lemma NewClient_base_URL_one_slash_witness :
  Server (constructed (NewClient (oauth2 := canned response_200)
                         "https://example.com/api///" [WithTrace true; WithLogin "key" "secret"]))
  = "https://example.com/api/".
Proof.
  destruct (NewClient_base_URL_one_slash (neturl := verbatim_url)
              (oauth2 := canned response_200)
              "https://example.com/api///" [WithTrace true; WithLogin "key" "secret"]
              (constructed (NewClient (oauth2 := canned response_200)
                              "https://example.com/api///"
                              [WithTrace true; WithLogin "key" "secret"])))
    as (_ & _ & Hserver).
  - constructor; [apply WithTrace_keeps | constructor; [apply WithLogin_keeps | constructor]].
  - reflexivity.
  - rewrite Hserver; [reflexivity | discriminate].
Defined.

(** X2, at a base-URL override without a trailing slash. *)
Lemma NewClient_Server_has_slash_witness :
  HasSuffix
    (Server (constructed (NewClient (neturl := verbatim_url) (oauth2 := canned response_200)
                            "" [WithBaseURL "https://example.com/api"]))) "/" = true.
Proof.
  apply (NewClient_Server_has_slash (neturl := verbatim_url) (oauth2 := canned response_200)
           "" [WithBaseURL "https://example.com/api"]).
  reflexivity.
Defined.

(** X3, at a client with its own user agent. *)
Lemma do_sets_standard_headers_witness :
  exists s1,
    Request_Header_Get issues_request "User-Agent" s1 = "custom agent" /\
    Request_Header_Get issues_request "Accept" s1 = "application/json" /\
    Request_Header_Get issues_request "Content-Type" s1 = "application/json".
Proof.
  destruct (do_sets_standard_headers (httputil := plain_dumps)
              (constructed (NewClient (oauth2 := canned response_200)
                              "https://example.com/api" [WithUserAgent "custom agent"]))
              issues_request issues_state
              ((Some response_200, None),
               header_assign 1%positive "Content-Type" ["application/json"]
                 (header_assign 1%positive "Accept" ["application/json"]
                    (header_assign 1%positive "User-Agent" ["custom agent"] issues_state)))
              eq_refl)
    as (inner & s1 & _ & _ & Hua & Hacc & Hct & _).
  exists s1. auto.
Defined.

(** The whole outcome of [GetObjectSet] at the 403 scenario. *)
Lemma GetObjectSet_fault_is_the_result_witness :
  GetObjectSet (strconv := literal_floats) (httputil := plain_dumps)
    (constructed (NewClient (oauth2 := canned response_403) "https://example.com/api" []))
    {| Version := "v1" |} "issues" empty_state
  = Some ((VFaultResponse
             (Some {| FaultResponse_Status := "403 Forbidden";
                      FaultResponse_StatusCode := 403;
                      FaultResponse_Fault :=
                        Some {| FaultString := "forbidden"; Detail := None |} |}),
           None), issues_state_sent).
Proof.
  apply (GetObjectSet_fault_is_the_result (strconv := literal_floats) (httputil := plain_dumps)
           (constructed (NewClient (oauth2 := canned response_403)
                           "https://example.com/api" []))
           {| Version := "v1" |} "issues" empty_state issues_state issues_state_sent
           issues_request response_403).
  - reflexivity.
  - reflexivity.
  - simpl. lia.
  - reflexivity.
Defined.

(** X4, at the 403 scenario. *)
Lemma NewFaultResponse_ok_witness :
  FaultResponse_Error
    {| FaultResponse_Status := "403 Forbidden"; FaultResponse_StatusCode := 403;
       FaultResponse_Fault := Some {| FaultString := "forbidden"; Detail := None |} |}
  = "forbidden".
Proof.
  destruct (NewFaultResponse_ok response_403
              {| FaultResponse_Status := "403 Forbidden"; FaultResponse_StatusCode := 403;
                 FaultResponse_Fault := Some {| FaultString := "forbidden"; Detail := None |} |}
              eq_refl) as (_ & _ & Herr).
  rewrite Herr. reflexivity.
Defined.

(** * Further properties *)

(** ** Options and construction *)

Section OptionFacts.
Context {neturl : NetURL} {oauth2 : OAuth2}.

Lemma NewClient_unfold (baseURL : string) (opts : list ClientOption) :
  NewClient baseURL opts
  = match apply_options opts (new_Client (TrimRight baseURL "/")) with
    | inl c => (Some (NewClient_finish c), None)
    | inr err => (None, Some err)
    end.
Proof. reflexivity. Qed.

Lemma NewClient_finished (baseURL : string) (opts : list ClientOption) (c : Client) :
  NewClient baseURL opts = (Some c, None) ->
  exists c1, apply_options opts (new_Client (TrimRight baseURL "/")) = inl c1
             /\ c = NewClient_finish c1.
Proof.
  rewrite NewClient_unfold.
  destruct (apply_options opts (new_Client (TrimRight baseURL "/"))) as [c1|e];
    [|discriminate].
  intros [= <-]. eauto.
Qed.

(** What [NewClient_finish] does to each field. *)
Lemma NewClient_finish_fields (c1 : Client) :
  let c := NewClient_finish c1 in
  Server c = normal_Server (Server c1) /\
  userAgent c = userAgent c1 /\ trace c = trace c1 /\
  user c = user c1 /\ password c = password c1 /\
  insecure c = insecure c1 /\ token c = token c1 /\
  ctx c = Some (client_context (ctx c1)) /\
  oauthConfig c = Some {| ClientID := user c1; ClientSecret := password c1;
                          TokenURL := normal_Server (Server c1) +:+ "oauth/token";
                          Scopes := [""] |} /\
  innerClient c
  = Some (Config_Client {| ClientID := user c1; ClientSecret := password c1;
                           TokenURL := normal_Server (Server c1) +:+ "oauth/token";
                           Scopes := [""] |} (client_context (ctx c1))) /\
  Client_Wellness c = Some {| Version := "v1" |}.
Proof.
  unfold NewClient_finish, normal_Server, client_context.
  destruct (ctx c1) as [cx|] eqn:Hctx; cbn -[HasSuffix String.eqb defaultServer];
    rewrite ?Hctx; cbn -[HasSuffix String.eqb defaultServer];
    destruct (String.eqb (Server c1) ""); cbn -[HasSuffix String.eqb defaultServer].
  all: match goal with |- context [HasSuffix ?x "/"] => destruct (HasSuffix x "/") end;
    cbn -[String.eqb defaultServer]; repeat split; reflexivity.
Qed.

Lemma apply_options_keeps {A : Type} (f : Client -> A)
    (opts : list ClientOption) (c c' : Client) :
  Forall (keeps f) opts -> apply_options opts c = inl c' -> f c' = f c.
Proof.
  intros Hall. revert c. induction Hall as [|o opts Ho _ IH]; intros c; simpl.
  - intros [= <-]. reflexivity.
  - specialize (Ho c). destruct (o c) as [c1 [e|]]; [discriminate|].
    intros Hrest. rewrite (IH _ Hrest). exact Ho.
Qed.

(** The option [o] sets the field [f] to [v], and the options after it leave
    the field alone: the field is [v] once all options have run. *)
Lemma apply_options_sets {A : Type} (f : Client -> A) (v : A)
    (pre post : list ClientOption) (o : ClientOption) (c c' : Client) :
  (forall c0, snd (o c0) = None -> f (fst (o c0)) = v) ->
  Forall (keeps f) post ->
  apply_options (pre ++ o :: post) c = inl c' ->
  f c' = v.
Proof.
  intros Hset Hkeep. rewrite apply_options_app.
  destruct (apply_options pre c) as [c0|e]; [|discriminate]. simpl.
  specialize (Hset c0). destruct (o c0) as [c1 [e|]]; [discriminate|].
  intros Hpost. rewrite (apply_options_keeps f _ _ _ Hkeep Hpost). apply Hset. reflexivity.
Qed.

(** X5. In every constructed client the token endpoint is the stored server
    URL followed by [oauth/token], the client id and secret are the stored
    user and password, the only scope is the empty string, the inner client
    is the one [clientcredentials] builds from that configuration and the
    client's own context, and the wellness accessor has version [v1]. *)
Theorem NewClient_oauth_config (baseURL : string) (opts : list ClientOption) (c : Client) :
  NewClient baseURL opts = (Some c, None) ->
  exists cfg cx,
    oauthConfig c = Some cfg /\ ctx c = Some cx /\
    innerClient c = Some (Config_Client cfg cx) /\
    ClientID cfg = user c /\ ClientSecret cfg = password c /\
    TokenURL cfg = Server c +:+ "oauth/token" /\ Scopes cfg = [""] /\
    Client_Wellness c = Some {| Version := "v1" |}.
Proof.
  intros Hnew. apply NewClient_finished in Hnew as (c1 & _ & ->).
  destruct (NewClient_finish_fields c1)
    as (Hs & _ & _ & Hu & Hp & _ & _ & Hctx & Hcfg & Hinner & Hw).
  eexists _, _. rewrite Hcfg, Hctx, Hinner, Hs, Hu, Hp, Hw. repeat split; reflexivity.
Qed.

(** X6. When the user-agent option is given and no later option writes the
    user agent, every request [do] hands to the inner client reads that user
    agent under [User-Agent]. *)
Theorem NewClient_user_agent_option {httputil : HTTPUtil}
    (baseURL ua : string) (pre post : list ClientOption) (c : Client)
    (req : Request) (s : State) (out : (option Response * option error) * State) :
  Forall (keeps userAgent) post ->
  NewClient baseURL (pre ++ WithUserAgent ua :: post) = (Some c, None) ->
  do c req s = Some out ->
  userAgent c = ua /\
  exists inner s1,
    innerClient c = Some inner /\ fst out = fst (inner req s1) /\
    header_at s1 (Header req) !! "User-Agent" = Some [ua].
Proof.
  intros Hkeep Hnew Hout. apply NewClient_finished in Hnew as (c1 & Hopts & ->).
  destruct (NewClient_finish_fields c1) as (_ & Hua & _).
  assert (Hc1 : userAgent c1 = ua).
  { refine (apply_options_sets userAgent ua _ _ _ _ _ _ Hkeep Hopts).
    intros; reflexivity. }
  rewrite Hc1 in Hua. split; [exact Hua|].
  apply do_inv in Hout as (inner & s1 & Hi & Hp & Hfst & _).
  exists inner, s1. repeat split; try assumption.
  destruct (do_prepare_headers _ _ _ _ Hp) as (l & _ & -> & _).
  rewrite lookup_insert_ne by discriminate. rewrite lookup_insert_ne by discriminate.
  rewrite lookup_insert_eq, Hua. reflexivity.
Qed.

(** X7. The context of a constructed client is the caller's context, as the
    last context option gave it, with the HTTP client for [oauth2] (the shim
    around the default transport) stored on top; a nil context option stands
    for the background context, and so does the absence of any. *)
Theorem NewClient_context_option
    (baseURL : string) (cx : option Context) (pre post : list ClientOption) (c : Client) :
  Forall (keeps ctx) post ->
  NewClient baseURL (pre ++ WithContext cx :: post) = (Some c, None) ->
  ctx c = Some (WithValue_HTTPClient (default Background cx)
                  (BearerAuthTransportRef HTTPDefaultTransport)).
Proof.
  intros Hkeep Hnew. apply NewClient_finished in Hnew as (c1 & Hopts & ->).
  destruct (NewClient_finish_fields c1) as (_ & _ & _ & _ & _ & _ & _ & -> & _).
  assert (Hc1 : ctx c1 = cx).
  { refine (apply_options_sets ctx cx _ _ _ _ _ _ Hkeep Hopts). intros; reflexivity. }
  rewrite Hc1. reflexivity.
Qed.

(** Without a context option the parent is the background context. *)
Lemma NewClient_default_context (baseURL : string) (opts : list ClientOption) (c : Client) :
  Forall (keeps ctx) opts ->
  NewClient baseURL opts = (Some c, None) ->
  ctx c = Some (WithValue_HTTPClient Background (BearerAuthTransportRef HTTPDefaultTransport)).
Proof.
  intros Hkeep Hnew. apply NewClient_finished in Hnew as (c1 & Hopts & ->).
  destruct (NewClient_finish_fields c1) as (_ & _ & _ & _ & _ & _ & _ & -> & _).
  rewrite (apply_options_keeps ctx _ _ _ Hkeep Hopts). reflexivity.
Qed.

(** X8. The credentials of the last login option are the client id and the
    client secret of the token exchange. *)
Theorem NewClient_login_option
    (baseURL u p : string) (pre post : list ClientOption) (c : Client) :
  Forall (keeps user) post -> Forall (keeps password) post ->
  NewClient baseURL (pre ++ WithLogin u p :: post) = (Some c, None) ->
  exists cfg, oauthConfig c = Some cfg /\ ClientID cfg = u /\ ClientSecret cfg = p.
Proof.
  intros Hku Hkp Hnew. apply NewClient_finished in Hnew as (c1 & Hopts & ->).
  destruct (NewClient_finish_fields c1) as (_ & _ & _ & _ & _ & _ & _ & _ & -> & _).
  eexists. split; [reflexivity|]. simpl. split.
  - refine (apply_options_sets user u _ _ _ _ _ _ Hku Hopts). intros; reflexivity.
  - refine (apply_options_sets password p _ _ _ _ _ _ Hkp Hopts). intros; reflexivity.
Qed.

(** X9. A base-URL override that parses replaces the base URL given to
    [NewClient] altogether: the stored server is made of the override as the
    URL parser prints it (the default server if that is empty, a slash
    appended if it does not end with one), whatever the base URL was. *)
Theorem NewClient_base_URL_override
    (baseURL override : string) (u : URL) (pre post : list ClientOption) (c : Client) :
  url_Parse override = inr u ->
  Forall (keeps Server) post ->
  NewClient baseURL (pre ++ WithBaseURL override :: post) = (Some c, None) ->
  Server c = normal_Server (URL_String u) /\
  (URL_String u = "" -> Server c = "https://infosight.hpe.com/apis/") /\
  (URL_String u <> "" -> HasSuffix (URL_String u) "/" = false ->
   Server c = URL_String u +:+ "/") /\
  (HasSuffix (URL_String u) "/" = true -> Server c = URL_String u).
Proof.
  intros Hparse Hkeep Hnew. apply NewClient_finished in Hnew as (c1 & Hopts & ->).
  destruct (NewClient_finish_fields c1) as (-> & _).
  assert (Hc1 : Server c1 = URL_String u).
  { refine (apply_options_sets Server (URL_String u) _ _ _ _ _ _ Hkeep Hopts).
    intros c0. unfold WithBaseURL. rewrite Hparse. reflexivity. }
  rewrite Hc1. split; [reflexivity|]. unfold normal_Server. split; [|split].
  - intros ->. reflexivity.
  - intros Hne Hsuf. apply String.eqb_neq in Hne. rewrite Hne, Hsuf. reflexivity.
  - intros Hsuf. destruct (String.eqb (URL_String u) "") eqn:E.
    + apply String.eqb_eq in E. rewrite E in Hsuf. discriminate.
    + rewrite Hsuf. reflexivity.
Qed.

(** The package's options, field by field. *)
Lemma WithTrace_keeps_fields (t : bool) :
  keeps userAgent (WithTrace t) /\ keeps Server (WithTrace t) /\ keeps ctx (WithTrace t)
  /\ keeps user (WithTrace t) /\ keeps password (WithTrace t).
Proof. repeat split. Qed.

Lemma WithUserAgent_keeps_fields (ua : string) :
  keeps trace (WithUserAgent ua) /\ keeps Server (WithUserAgent ua)
  /\ keeps ctx (WithUserAgent ua) /\ keeps user (WithUserAgent ua)
  /\ keeps password (WithUserAgent ua).
Proof. repeat split. Qed.

Lemma WithContext_keeps_fields (cx : option Context) :
  keeps trace (WithContext cx) /\ keeps Server (WithContext cx)
  /\ keeps userAgent (WithContext cx) /\ keeps user (WithContext cx)
  /\ keeps password (WithContext cx).
Proof. repeat split. Qed.

Lemma WithLogin_keeps_fields (u p : string) :
  keeps trace (WithLogin u p) /\ keeps Server (WithLogin u p)
  /\ keeps userAgent (WithLogin u p) /\ keeps ctx (WithLogin u p).
Proof. repeat split. Qed.

Lemma WithBaseURL_keeps_fields (b : string) :
  keeps trace (WithBaseURL b) /\ keeps userAgent (WithBaseURL b)
  /\ keeps ctx (WithBaseURL b) /\ keeps user (WithBaseURL b)
  /\ keeps password (WithBaseURL b).
Proof.
  repeat split; intros c; unfold WithBaseURL; destruct (url_Parse b); reflexivity.
Qed.

(** X10. A client made from the environment takes its credentials from
    [INFOSIGHT_CLIENT_KEY] and [INFOSIGHT_CLIENT_SECRET], also when the caller
    passes a login option of its own: the environment's login is applied
    last. *)
Theorem NewClientFromEnvironment_credentials
    (env : string -> string) (opts : list ClientOption) (c : Client) :
  NewClientFromEnvironment env opts = (Some c, None) ->
  user c = env "INFOSIGHT_CLIENT_KEY" /\
  password c = env "INFOSIGHT_CLIENT_SECRET" /\
  exists cfg, oauthConfig c = Some cfg /\
    ClientID cfg = env "INFOSIGHT_CLIENT_KEY" /\
    ClientSecret cfg = env "INFOSIGHT_CLIENT_SECRET" /\
    TokenURL cfg = Server c +:+ "oauth/token".
Proof.
  unfold NewClientFromEnvironment. rewrite NewClient_unfold.
  destruct (apply_options _ _) as [c1|e] eqn:Hopts; [|discriminate].
  intros [= <-].
  destruct (NewClient_finish_fields c1)
    as (Hs & _ & _ & Hu & Hp & _ & _ & _ & Hcfg & _).
  assert (Hu1 : user c1 = env "INFOSIGHT_CLIENT_KEY").
  { refine (apply_options_sets user _ _ _ _ _ _ _ ltac:(constructor) Hopts).
    intros; reflexivity. }
  assert (Hp1 : password c1 = env "INFOSIGHT_CLIENT_SECRET").
  { refine (apply_options_sets password _ _ _ _ _ _ _ ltac:(constructor) Hopts).
    intros; reflexivity. }
  rewrite Hu, Hp, Hcfg, Hs, Hu1, Hp1. repeat split. eexists. repeat split; reflexivity.
Qed.

(** X11. A client made from the environment has the server of
    [INFOSIGHT_URL], with exactly one trailing slash, and the default server
    when the variable is unset or empty, provided no option writes the
    server; and an option that fails makes it fail with that option's
    error. *)
Theorem NewClientFromEnvironment_server
    (env : string -> string) (opts : list ClientOption) :
  Forall (keeps Server) opts ->
  match NewClientFromEnvironment env opts with
  | (Some c, None) =>
      Server c = (if String.eqb (TrimRight (env "INFOSIGHT_URL") "/") ""
                  then "https://infosight.hpe.com/apis/"
                  else TrimRight (env "INFOSIGHT_URL") "/" +:+ "/")
      /\ ends_with_one_slash (Server c) = true
  | (None, Some e) =>
      exists pre o post c0,
        opts = (pre ++ o :: post)%list /\ snd (o c0) = Some e
  | _ => False
  end.
Proof.
  intros Hkeep. unfold NewClientFromEnvironment. rewrite NewClient_unfold.
  destruct (apply_options _ _) as [c1|e] eqn:Hopts.
  - destruct (NewClient_finish_fields c1) as (-> & _).
    assert (Hk : Forall (keeps Server)
                   (opts ++ [WithLogin (env "INFOSIGHT_CLIENT_KEY")
                                       (env "INFOSIGHT_CLIENT_SECRET")])).
    { apply Forall_app. split; [exact Hkeep|]. constructor; [|constructor].
      intros c0. reflexivity. }
    rewrite (apply_options_keeps Server _ _ _ Hk Hopts). simpl.
    split; [apply normal_Server_trimmed | apply normal_Server_trimmed_one_slash].
  - clear Hkeep. revert Hopts.
    generalize (new_Client (TrimRight (env "INFOSIGHT_URL") "/")).
    induction opts as [|o opts IH]; intros c0; simpl.
    + discriminate.
    + destruct (o c0) as [c1 [e'|]] eqn:Ho.
      * intros [= ->]. exists [], o, opts, c0. rewrite Ho. auto.
      * intros Hrest. destruct (IH _ Hrest) as (pre & o' & post & c2 & -> & Ho').
        exists (o :: pre), o', post, c2. auto.
Qed.

End OptionFacts.

(** ** Tracing, panics and the shim *)

Section MoreDoFacts.
Context {neturl : NetURL} {httputil : HTTPUtil}.

Lemma do_trace_headers (req : Request) (r : option Response) (s : State) :
  headers (do_trace req r s) = headers s.
Proof.
  unfold do_trace. destruct (DumpRequestOut req s); destruct r as [r|];
    try destruct (DumpResponse r); reflexivity.
Qed.

(** What tracing logs: one line, unless there is a response whose dump
    fails; a request dump that fails only leaves the request part empty. *)
Lemma do_trace_log (req : Request) (r : option Response) (s : State) :
  match r with
  | Some r' =>
      match DumpResponse r' with
      | inl _ => do_trace req r s = s
      | inr _ => exists line, log (do_trace req r s) = (log s ++ ["[TRACE] " +:+ line])%list
      end
  | None => exists line, log (do_trace req r s) = (log s ++ ["[TRACE] " +:+ line])%list
  end.
Proof.
  unfold do_trace. destruct (DumpRequestOut req s); destruct r as [r|];
    try destruct (DumpResponse r); try reflexivity; eexists; reflexivity.
Qed.

(** X12. What tracing does to the store [do] returns.  With the trace flag
    off it is the store the inner client left.  With the flag on, the header
    maps are still those the inner client left, and the log has exactly one
    more line, starting with [[TRACE] ], except when there is a response
    whose dump fails: then nothing is logged.  A failing request dump does
    not prevent the line. *)
Theorem do_tracing_effect (c : Client) (req : Request) (s : State)
    (out : (option Response * option error) * State) :
  do c req s = Some out ->
  exists inner s1,
    innerClient c = Some inner /\ do_prepare c req s = Some s1 /\
    headers (snd out) = headers (snd (inner req s1)) /\
    (trace c = false -> snd out = snd (inner req s1)) /\
    (trace c = true ->
     match fst (fst out) with
     | Some r =>
         match DumpResponse r with
         | inl _ => snd out = snd (inner req s1)
         | inr _ => exists line,
             log (snd out) = (log (snd (inner req s1)) ++ ["[TRACE] " +:+ line])%list
         end
     | None => exists line,
         log (snd out) = (log (snd (inner req s1)) ++ ["[TRACE] " +:+ line])%list
     end).
Proof.
  intros Hout. apply do_inv in Hout as (inner & s1 & Hi & Hp & Hfst & Hsnd).
  exists inner, s1. rewrite Hsnd, Hfst. repeat split; try assumption.
  - destruct (trace c); [apply do_trace_headers | reflexivity].
  - intros ->. reflexivity.
  - intros ->. apply do_trace_log.
Qed.

(** X13. [do] panics exactly when the client has no context, the request has
    no header map, or the client has no inner client: neither the trace flag,
    nor a failing dump, nor what the inner client returns makes it panic. *)
Theorem do_panics_iff (c : Client) (req : Request) (s : State) :
  do c req s = None <-> ctx c = None \/ Header req = None \/ innerClient c = None.
Proof.
  unfold do. rewrite do_prepare_spec. split.
  - destruct (ctx c); [|auto]. destruct (Header req); [|auto].
    destruct (innerClient c) as [inner|]; [|auto].
    destruct (inner req _) as [[r e] s2]. discriminate.
  - intros [-> | [H | H]]; [reflexivity| |].
    + rewrite H. destruct (ctx c); reflexivity.
    + rewrite H. destruct (ctx c); destruct (Header req); reflexivity.
Qed.

End MoreDoFacts.

Section MoreShimFacts.
Context {neturl : NetURL}.

(** X14. A clone and its original do not share their header map.  If the
    original's map is in the store, the clone holds the same headers in a map
    of its own, so setting a header on either one afterwards leaves the
    headers of the other as they were; the clone of a request with a nil
    header map has an empty map, not a nil one. *)
Theorem cloneRequest_independent (r r2 : Request) (s s2 : State) :
  (forall l, Header r = Some l -> l ∈ dom (headers s)) ->
  cloneRequest r s = (r2, s2) ->
  Header r2 <> None /\ Header r2 <> Header r /\
  header_at s2 (Header r2) = header_at s (Header r) /\
  header_at s2 (Header r) = header_at s (Header r) /\
  (forall key value s3,
     Request_Header_Set r2 key value s2 = Some s3 ->
     header_at s3 (Header r) = header_at s (Header r)) /\
  (forall key value s3,
     Request_Header_Set r key value s2 = Some s3 ->
     header_at s3 (Header r2) = header_at s (Header r)).
Proof.
  intros Hwf Hclone.
  destruct (cloneRequest_spec _ _ _ _ Hclone)
    as (l2 & Hh2 & Hfresh & _ & _ & _ & _ & Hat & Hother & _).
  assert (Hne : forall l, Header r = Some l -> l ≠ l2).
  { intros l Hl ->. apply Hfresh, Hwf, Hl. }
  assert (Horig : header_at s2 (Header r) = header_at s (Header r)).
  { destruct (Header r) as [l|] eqn:Hl; [|reflexivity].
    unfold header_at. rewrite Hother by (apply Hne; reflexivity). reflexivity. }
  rewrite Hh2. repeat split.
  - discriminate.
  - intros Heq. symmetry in Heq. exact (Hne _ Heq eq_refl).
  - exact Hat.
  - exact Horig.
  - intros key value s3. rewrite (Request_Header_Set_some _ _ _ _ _ Hh2).
    intros [= <-]. destruct (Header r) as [l|] eqn:Hl; [|reflexivity].
    rewrite header_at_assign_other by (apply Hne; reflexivity). exact Horig.
  - intros key value s3. destruct (Header r) as [l|] eqn:Hl.
    + rewrite (Request_Header_Set_some r key value s2 l Hl). intros [= <-].
      rewrite header_at_assign_other; [exact Hat|].
      intros ->. exact (Hne _ eq_refl eq_refl).
    + unfold Request_Header_Set. rewrite Hl. discriminate.
Qed.

(** X15. The shim never panics and never fails by itself: for every request
    it calls the wrapped transport once, on a copy with the fields of the
    original, and returns exactly what that call returns, response, error and
    store.  It writes to no header map that was in the store, the original's
    included, and not to the log. *)
Theorem RoundTrip_frame (t : BearerAuthTransport) (req : Request) (s : State) :
  exists req2 s2,
    RoundTrip t req s = Some (rt t req2 s2) /\
    Method req2 = Method req /\ Request_URL req2 = Request_URL req /\
    Host req2 = Host req /\ Request_ctx req2 = Request_ctx req /\
    (forall l, l ∈ dom (headers s) -> headers s2 !! l = headers s !! l) /\
    log s2 = log s.
Proof.
  destruct (RoundTrip_request_spec req s)
    as (req2 & s2 & l2 & Hrt & _ & Hfresh & Hm & Hu & Hh & Hc & _ & Hother & Hlog).
  exists req2, s2. unfold RoundTrip. rewrite Hrt. repeat split; try assumption.
  intros l Hl. apply Hother. intros ->. contradiction.
Qed.

Lemma HasPrefix_Bearer (x : string) : HasPrefix ("Bearer " +:+ x) "BearerToken " = false.
Proof.
  unfold HasPrefix. apply andb_false_iff. right. apply String.eqb_neq.
  change ("Bearer " +:+ x)
    with (String "B" (String "e" (String "a" (String "r" (String "e" (String "r"
            (String " " x))))))).
  simpl. intros H. discriminate H.
Qed.

(** The credential the shim writes never starts with [BearerToken ]. *)
Lemma rewritten_auth_fixed (auth : string) :
  HasPrefix (rewritten_auth auth) "BearerToken " = false.
Proof.
  unfold rewritten_auth. destruct (HasPrefix auth "BearerToken ") eqn:E.
  - apply HasPrefix_Bearer.
  - exact E.
Qed.

(** X16. A request the shim has handed on passes a second shim with its
    headers unchanged: rewriting happens once, and [Bearer] credentials are
    left alone. *)
Theorem RoundTrip_request_twice (req req2 : Request) (s s2 : State) :
  RoundTrip_request req s = Some (req2, s2) ->
  exists req3 s3,
    RoundTrip_request req2 s2 = Some (req3, s3) /\
    header_at s3 (Header req3) = header_at s2 (Header req2) /\
    Request_Header_Get req3 "Authorization" s3
    = rewritten_auth (Request_Header_Get req "Authorization" s).
Proof.
  intros Hfirst.
  destruct (RoundTrip_request_spec req s)
    as (r & s' & l2 & Hrt & Hh2 & _ & _ & _ & _ & _ & Hat & _).
  rewrite Hfirst in Hrt. injection Hrt as <- <-.
  destruct (RoundTrip_request_spec req2 s2)
    as (req3 & s3 & l3 & Hrt3 & Hh3 & _ & _ & _ & _ & _ & Hat3 & _).
  exists req3, s3. split; [exact Hrt3|].
  assert (Hget : Request_Header_Get req2 "Authorization" s2
                 = rewritten_auth (Request_Header_Get req "Authorization" s)).
  { unfold Request_Header_Get at 1. unfold Header_Get. rewrite Hh2, Hat.
    change (CanonicalMIMEHeaderKey "Authorization") with "Authorization".
    rewrite lookup_insert_eq. reflexivity. }
  assert (Hsame : header_at s3 (Header req3) = header_at s2 (Header req2)).
  { rewrite Hh3, Hat3, Hget. unfold rewritten_auth at 1.
    rewrite rewritten_auth_fixed. rewrite Hh2, Hat. apply insert_insert_eq. }
  split; [exact Hsame|].
  unfold Request_Header_Get at 1. rewrite Hsame. exact Hget.
Qed.

End MoreShimFacts.

(** ** Envelopes and outcomes *)

Section MoreDecodingFacts.
Context {strconv : StrConv}.

(** A member that cannot be decoded, whatever the struct holds by then,
    makes the decoding of the whole object fail. *)
Lemma fold_members_fails {T} (step : T -> string -> json -> result T)
    (ms : list (string * json)) (k : string) (v : json) (cur : T) :
  In (k, v) ms ->
  (forall c, exists e, step c k v = Err e) ->
  exists e, fold_members step ms cur = Err e.
Proof.
  intros Hin Hbad. revert cur. induction ms as [|[k' v'] rest IH]; intros cur.
  - destruct Hin.
  - simpl. destruct (step cur k' v') as [cur'|e] eqn:Hstep; [|eauto]. simpl.
    destruct Hin as [[= -> ->]|Hin].
    + destruct (Hbad cur) as [e He]. congruence.
    + apply IH, Hin.
Qed.

Lemma fold_members_skips {T} (step : T -> string -> json -> result T)
    (ms : list (string * json)) (cur : T) :
  Forall (fun m => forall c, step c (fst m) (snd m) = Ok c) ms ->
  fold_members step ms cur = Ok cur.
Proof.
  intros Hall. induction Hall as [|[k v] rest Hm _ IH]; [reflexivity|].
  simpl in *. rewrite (Hm cur). simpl. exact IH.
Qed.

Lemma decode_Fault_faultstring (fm : list (string * json)) (cur fault : Fault) :
  decode_Fault (JObject fm) cur = Ok fault ->
  match last_member "faultstring" fm with
  | None => FaultString fault = FaultString cur
  | Some v => exists s0, decode_string v s0 = Ok (FaultString fault)
  end.
Proof.
  unfold decode_Fault, decode_struct.
  revert cur. induction fm as [|[k v] rest IH]; intros cur; simpl.
  - intros [= <-]. reflexivity.
  - destruct (is_field k "faultstring") eqn:Hfs.
    + destruct (decode_string v (FaultString cur)) as [str|e] eqn:Hd; simpl; [|discriminate].
      intros Hrest. specialize (IH _ Hrest).
      destruct (last_member "faultstring" rest); [exact IH|]. simpl in IH.
      exists (FaultString cur). congruence.
    + destruct (is_field k "detail").
      * destruct (decode_ptr decode_FaultDetail _ v _) as [d|e]; simpl; [|discriminate].
        intros Hrest. specialize (IH _ Hrest).
        destruct (last_member "faultstring" rest); exact IH.
      * simpl. intros Hrest. specialize (IH _ Hrest).
        destruct (last_member "faultstring" rest); exact IH.
Qed.

Lemma decode_FaultResponse_fault (ms : list (string * json)) (cur f : FaultResponse) :
  decode_FaultResponse (JObject ms) cur = Ok f ->
  match last_member "fault" ms with
  | None => FaultResponse_Fault f = FaultResponse_Fault cur
  | Some v => exists cur', decode_ptr decode_Fault zero_Fault v cur' = Ok (FaultResponse_Fault f)
  end.
Proof.
  unfold decode_FaultResponse, decode_struct.
  revert cur. induction ms as [|[k v] rest IH]; intros cur; simpl.
  - intros [= <-]. reflexivity.
  - destruct (is_field k "fault") eqn:Hfault.
    + rewrite (is_field_exclusive k "fault" "Status") by (discriminate || assumption).
      rewrite (is_field_exclusive k "fault" "StatusCode") by (discriminate || assumption).
      destruct (decode_ptr decode_Fault zero_Fault v _) as [d|e] eqn:Hd; simpl; [|discriminate].
      intros Hrest. specialize (IH _ Hrest).
      destruct (last_member "fault" rest); [exact IH|]. simpl in IH.
      exists (FaultResponse_Fault cur). congruence.
    + destruct (is_field k "Status").
      * destruct (decode_string v _) as [st|e]; simpl; [|discriminate].
        intros Hrest. specialize (IH _ Hrest).
        destruct (last_member "fault" rest); exact IH.
      * destruct (is_field k "StatusCode").
        -- destruct (decode_int v _) as [n|e]; simpl; [|discriminate].
           intros Hrest. specialize (IH _ Hrest).
           destruct (last_member "fault" rest); exact IH.
        -- simpl. intros Hrest. specialize (IH _ Hrest).
           destruct (last_member "fault" rest); exact IH.
Qed.

End MoreDecodingFacts.

Section MoreWellnessFacts.
Context {neturl : NetURL} {strconv : StrConv} {httputil : HTTPUtil}.

(** X17. The message of a fault envelope, read off the body: the status line
    of the response when the body (an object) has no [fault] member or a
    [null] one, and the string of the [faultstring] member of the [fault]
    object when it has one.  Members are found by name without regard to
    case, the last one counts. *)
Theorem NewFaultResponse_message_from_body
    (r : Response) (ms : list (string * json)) (f : FaultResponse) :
  Body r = Document (JObject ms) ->
  NewFaultResponse r = (Some f, None) ->
  match last_member "fault" ms with
  | None | Some JNull => FaultResponse_Error f = Response_Status r
  | Some (JObject fm) =>
      match last_member "faultstring" fm with
      | Some (JString message) => FaultResponse_Error f = message
      | _ => True
      end
  | Some _ => False
  end.
Proof.
  intros Hbody. unfold NewFaultResponse. rewrite Hbody. unfold Decode.
  destruct (decode_FaultResponse (JObject ms) zero_FaultResponse) as [d|e] eqn:Hd;
    [|discriminate].
  intros [= <-]. unfold FaultResponse_Error. simpl.
  pose proof (fold_members_Fault _ _ _ Hd) as Hshape.
  pose proof (decode_FaultResponse_fault _ _ _ Hd) as Hfault.
  destruct (last_member "fault" ms) as [v|].
  - destruct Hfault as [cur' Hptr]. destruct v; simpl in Hshape.
    + rewrite Hshape. reflexivity.
    + unfold decode_ptr, decode_Fault, decode_struct in Hptr. discriminate.
    + unfold decode_ptr, decode_Fault, decode_struct in Hptr. discriminate.
    + unfold decode_ptr, decode_Fault, decode_struct in Hptr. discriminate.
    + unfold decode_ptr, decode_Fault, decode_struct in Hptr. discriminate.
    + unfold decode_ptr in Hptr.
      destruct (decode_Fault (JObject members) (default zero_Fault cur')) as [fault|e] eqn:Hf;
        simpl in Hptr; [|discriminate].
      injection Hptr as <-.
      pose proof (decode_Fault_faultstring _ _ _ Hf) as Hfs.
      destruct (last_member "faultstring" members) as [[]|]; try exact I.
      destruct Hfs as [s0 Hs0]. simpl in Hs0. congruence.
  - simpl in Hshape. rewrite Hshape. reflexivity.
Qed.

(** X18. The fault envelope takes a body member named [status] (in any case)
    for its untagged [Status] field, a string: a fault body in which that
    member is an object, a number, a boolean or an array does not decode, and
    [NewFaultResponse] returns no envelope and the decoder's error. *)
Theorem NewFaultResponse_status_member
    (r : Response) (ms : list (string * json)) (k : string) (v : json) :
  Body r = Document (JObject ms) ->
  In (k, v) ms -> is_field k "Status" = true -> not_null_nor_string v ->
  exists e, NewFaultResponse r = (None, Some (JSONError e)).
Proof.
  intros Hbody Hin Hk Hv. unfold NewFaultResponse. rewrite Hbody. simpl.
  unfold decode_FaultResponse, decode_struct.
  edestruct (fold_members_fails (T := FaultResponse)) as [e He]; [exact Hin| |rewrite He; eauto].
  intros c. simpl. rewrite Hk. destruct v; simpl in *; try contradiction; eauto.
Qed.

(** X19. What [GetObjectSet] can return.  A nil result always comes with an
    error; an [APIResponse] always comes without one; a fault envelope comes
    as the result, without an error when it was decoded and as a nil pointer
    with the decoder's error when it was not. *)
Theorem GetObjectSet_outcomes
    (c : Client) (w : Wellness) (objectSet : string) (s s' : State)
    (v : Value) (err : option error) :
  GetObjectSet c w objectSet s = Some ((v, err), s') ->
  match v with
  | VNil => err <> None
  | VAPIResponse _ => err = None
  | VFaultResponse (Some _) => err = None
  | VFaultResponse None => exists e, err = Some (JSONError e)
  end.
Proof.
  unfold GetObjectSet.
  destruct (NewRequest "GET" (queryURL c w objectSet) s) as [[req|e] s1].
  - unfold GetObjectSet_response.
    destruct (do c req s1) as [[[[r|] [e|]] s2]|]; try discriminate.
    + intros [=]; subst; simpl. discriminate.
    + destruct (399 <? StatusCode r)%Z.
      * destruct (NewFaultResponse_cases r) as [[f Hf]|[e He]].
        -- rewrite Hf. intros [=]; subst; simpl. reflexivity.
        -- rewrite He. intros [=]; subst; simpl. eauto.
      * destruct (Decode decode_APIResponse (Body r) zero_APIResponse).
        -- intros [=]; subst; simpl. reflexivity.
        -- intros [=]; subst; simpl. discriminate.
    + intros [=]; subst; simpl. discriminate.
  - intros [=]; subst; simpl. discriminate.
Qed.

(** X20. An error of the inner client is what [GetObjectSet] returns, with a
    nil result, whether or not a response came with it and whatever its
    status and body are; the trace flag makes no difference. *)
Theorem GetObjectSet_transport_error
    (c : Client) (w : Wellness) (objectSet : string) (s s1 s2 : State)
    (req : Request) (inner : HTTPRequestDoer) (e : error) :
  NewRequest "GET" (queryURL c w objectSet) s = (inl req, s1) ->
  do_prepare c req s1 = Some s2 ->
  innerClient c = Some inner ->
  snd (fst (inner req s2)) = Some e ->
  option_map fst (GetObjectSet c w objectSet s) = Some (VNil, Some e).
Proof.
  intros Hreq Hprep Hinner Herr. unfold GetObjectSet, do. rewrite Hreq, Hprep, Hinner.
  destruct (inner req s2) as [[r e'] s3]. simpl in Herr. subst e'.
  destruct r; reflexivity.
Qed.

(** X21. For a status up to 399, a body member named [data] (in any case)
    that is neither [null] nor an array makes [GetObjectSet] return a nil
    result and the decoder's error, wherever the member stands in the
    body. *)
Theorem GetObjectSet_data_not_array
    (c : Client) (w : Wellness) (objectSet : string) (s s1 s2 : State)
    (req : Request) (r : Response) (ms : list (string * json)) (k : string) (v : json) :
  NewRequest "GET" (queryURL c w objectSet) s = (inl req, s1) ->
  do c req s1 = Some ((Some r, None), s2) ->
  (StatusCode r <= 399)%Z ->
  Body r = Document (JObject ms) ->
  In (k, v) ms -> is_field k "data" = true -> not_null_nor_array v ->
  exists e, GetObjectSet c w objectSet s = Some ((VNil, Some (JSONError e)), s2).
Proof.
  intros Hreq Hdo Hstatus Hbody Hin Hk Hv. unfold GetObjectSet. rewrite Hreq, Hdo. simpl.
  destruct (399 <? StatusCode r)%Z eqn:E; [apply Z.ltb_lt in E; lia|].
  rewrite Hbody. simpl. unfold decode_APIResponse, decode_struct.
  edestruct (fold_members_fails (T := APIResponse)) as [e He];
    [exact Hin| |rewrite He; eauto].
  intros c0. simpl.
  rewrite (is_field_exclusive k "data" "status") by (discriminate || assumption).
  rewrite (is_field_exclusive k "data" "request") by (discriminate || assumption).
  rewrite Hk. destruct v; simpl in *; try contradiction; eauto.
Qed.

(** X22. For a status up to 399, a body that is an object without a member
    named [status], [request] or [data] (in any case) gives the empty
    envelope and no error: members the envelope does not know are ignored, a
    fault-shaped body included. *)
Theorem GetObjectSet_unknown_members
    (c : Client) (w : Wellness) (objectSet : string) (s s1 s2 : State)
    (req : Request) (r : Response) (ms : list (string * json)) :
  NewRequest "GET" (queryURL c w objectSet) s = (inl req, s1) ->
  do c req s1 = Some ((Some r, None), s2) ->
  (StatusCode r <= 399)%Z ->
  Body r = Document (JObject ms) ->
  Forall (fun m => is_field (fst m) "status" = false /\
                   is_field (fst m) "request" = false /\
                   is_field (fst m) "data" = false) ms ->
  GetObjectSet c w objectSet s
  = Some ((VAPIResponse {| APIResponse_Status := None; APIResponse_Request := None;
                           Data := None |}, None), s2).
Proof.
  intros Hreq Hdo Hstatus Hbody Hall. unfold GetObjectSet. rewrite Hreq, Hdo. simpl.
  destruct (399 <? StatusCode r)%Z eqn:E; [apply Z.ltb_lt in E; lia|].
  rewrite Hbody. simpl. unfold decode_APIResponse, decode_struct.
  rewrite fold_members_skips; [reflexivity|].
  eapply Forall_impl; [exact Hall|]. intros [k v] (H1 & H2 & H3) c0. simpl in *.
  rewrite H1, H2, H3. reflexivity.
Qed.

End MoreWellnessFacts.

Section EndToEnd.
Context {neturl : NetURL} {strconv : StrConv} {httputil : HTTPUtil} {oauth2 : OAuth2}.

(** X23. The URL a constructed client asks for: the base URL without its
    trailing slashes (the default server when that leaves nothing), then
    [/wellness/v1/], the name and the query, provided no option writes the
    server. *)
Theorem GetObjectSet_URL_constructed
    (baseURL objectSet : string) (opts : list ClientOption) (c : Client) :
  Forall (keeps Server) opts ->
  NewClient baseURL opts = (Some c, None) ->
  exists w, Client_Wellness c = Some w /\
    queryURL c w objectSet
    = (if String.eqb (TrimRight baseURL "/") "" then "https://infosight.hpe.com/apis"
       else TrimRight baseURL "/")
      +:+ "/wellness/v1/" +:+ objectSet +:+ "?domain=urn:nimble".
Proof.
  intros Hkeep Hnew. apply NewClient_finished in Hnew as (c1 & Hopts & ->).
  destruct (NewClient_finish_fields c1) as (Hs & _ & _ & _ & _ & _ & _ & _ & _ & _ & Hw).
  eexists. split; [exact Hw|]. unfold queryURL. rewrite Hs.
  rewrite (apply_options_keeps Server _ _ _ Hkeep Hopts). simpl.
  rewrite normal_Server_trimmed.
  destruct (String.eqb (TrimRight baseURL "/") ""); [reflexivity|].
  rewrite !app_assoc'. reflexivity.
Qed.

(** X24. On a constructed client [GetObjectSet] does not panic, as long as
    the inner client never returns a nil response together with a nil
    error. *)
Theorem GetObjectSet_no_panic
    (baseURL objectSet : string) (opts : list ClientOption) (c : Client)
    (w : Wellness) (s : State) :
  NewClient baseURL opts = (Some c, None) ->
  (forall inner req s0, innerClient c = Some inner -> fst (inner req s0) <> (None, None)) ->
  GetObjectSet c w objectSet s <> None.
Proof.
  intros Hnew Hcontract. apply NewClient_finished in Hnew as (c1 & _ & ->).
  destruct (NewClient_finish_fields c1)
    as (_ & _ & _ & _ & _ & _ & _ & Hctx & _ & Hinner & _).
  remember (NewClient_finish c1) as c eqn:Hc. clear Hc.
  unfold GetObjectSet. rewrite NewRequest_GET.
  destruct (url_Parse (queryURL c w objectSet)) as [e|u]; [discriminate|].
  unfold GetObjectSet_response, do. rewrite do_prepare_spec, Hctx, Hinner.
  cbn [Header].
  match goal with |- context [Config_Client ?cfg ?cx ?req ?st] =>
    specialize (Hcontract (Config_Client cfg cx) req st Hinner);
    destruct (Config_Client cfg cx req st) as [[r e] s2] end.
  cbn [fst] in Hcontract. destruct r as [r|]; destruct e as [e|];
    try discriminate; [|congruence].
  destruct (399 <? StatusCode r)%Z.
  - destruct (NewFaultResponse r). discriminate.
  - destruct (Decode decode_APIResponse (Body r) zero_APIResponse); discriminate.
Qed.

(** X25. A client constructed with options that leave the trace flag alone
    does not trace: the store [do] returns is the store its inner client
    left, the log included. *)
Theorem NewClient_default_no_trace
    (baseURL : string) (opts : list ClientOption) (c : Client)
    (req : Request) (s : State) (out : (option Response * option error) * State) :
  Forall (keeps trace) opts ->
  NewClient baseURL opts = (Some c, None) ->
  do c req s = Some out ->
  trace c = false /\
  exists inner s1,
    innerClient c = Some inner /\ do_prepare c req s = Some s1 /\ out = inner req s1.
Proof.
  intros Hkeep Hnew Hout. apply NewClient_finished in Hnew as (c1 & Hopts & ->).
  destruct (NewClient_finish_fields c1) as (_ & _ & Htrace & _).
  assert (Hoff : trace (NewClient_finish c1) = false).
  { rewrite Htrace, (apply_options_keeps trace _ _ _ Hkeep Hopts). reflexivity. }
  clear Htrace. remember (NewClient_finish c1) as c eqn:Hc. clear Hc.
  split; [exact Hoff|].
  apply do_inv in Hout as (inner & s1 & Hi & Hp & Hfst & Hsnd).
  exists inner, s1. rewrite Hoff in Hsnd. repeat split; try assumption.
  destruct out as [o1 o2]. simpl in *. subst. destruct (inner req s1). reflexivity.
Qed.

End EndToEnd.

(** ** Examples for the further properties *)

(** X5, at a client with a login. *)
Lemma NewClient_oauth_config_witness :
  exists cfg,
    oauthConfig (constructed (NewClient (oauth2 := canned response_200)
                                "https://example.com/api" [WithLogin "key" "secret"]))
    = Some cfg /\
    TokenURL cfg = "https://example.com/api/oauth/token" /\
    ClientID cfg = "key" /\ ClientSecret cfg = "secret".
Proof.
  destruct (NewClient_oauth_config (neturl := verbatim_url) (oauth2 := canned response_200)
              "https://example.com/api" [WithLogin "key" "secret"]
              (constructed (NewClient (oauth2 := canned response_200)
                              "https://example.com/api" [WithLogin "key" "secret"]))
              eq_refl)
    as (cfg & cx & Hcfg & _ & _ & Hid & Hsecret & Hurl & _).
  exists cfg. rewrite Hurl, Hid, Hsecret. repeat split; try reflexivity. exact Hcfg.
Defined.

(** X6, at a user-agent option followed by a login. *)
Lemma NewClient_user_agent_option_witness :
  userAgent (constructed (NewClient (oauth2 := canned response_200) "https://example.com/api"
                            [WithUserAgent "custom agent"; WithLogin "key" "secret"]))
  = "custom agent".
Proof.
  refine (proj1 (NewClient_user_agent_option (neturl := verbatim_url)
                  (oauth2 := canned response_200) (httputil := plain_dumps)
                  "https://example.com/api" "custom agent" [] [WithLogin "key" "secret"]
                  (constructed (NewClient (oauth2 := canned response_200)
                                  "https://example.com/api"
                                  ([] ++ WithUserAgent "custom agent"
                                      :: [WithLogin "key" "secret"])))
                  issues_request issues_state
                  ((Some response_200, None), issues_state_sent_as "custom agent")
                  _ eq_refl eq_refl)).
  constructor; [intros c; reflexivity | constructor].
Defined.

(** X7, at a caller's context followed by the trace option. *)
Lemma NewClient_context_option_witness :
  ctx (constructed (NewClient (oauth2 := canned response_200) "https://example.com/api"
                      [WithContext (Some (CallerContext 7)); WithTrace true]))
  = Some (WithValue_HTTPClient (CallerContext 7)
            (BearerAuthTransportRef HTTPDefaultTransport)).
Proof.
  refine (NewClient_context_option (neturl := verbatim_url) (oauth2 := canned response_200)
            "https://example.com/api" (Some (CallerContext 7)) [] [WithTrace true]
            (constructed (NewClient (oauth2 := canned response_200)
                            "https://example.com/api"
                            ([] ++ WithContext (Some (CallerContext 7))
                                :: [WithTrace true])))
            _ eq_refl).
  constructor; [intros c; reflexivity | constructor].
Defined.

(** X8, at two login options. *)
Lemma NewClient_login_option_witness :
  exists cfg,
    oauthConfig (constructed (NewClient (oauth2 := canned response_200)
                                "https://example.com/api"
                                [WithLogin "first" "one"; WithLogin "key" "secret"]))
    = Some cfg /\ ClientID cfg = "key" /\ ClientSecret cfg = "secret".
Proof.
  refine (NewClient_login_option (neturl := verbatim_url) (oauth2 := canned response_200)
            "https://example.com/api" "key" "secret" [WithLogin "first" "one"] []
            (constructed (NewClient (oauth2 := canned response_200)
                            "https://example.com/api"
                            ([WithLogin "first" "one"] ++ WithLogin "key" "secret" :: [])))
            _ _ eq_refl); constructor.
Defined.

(** X9, at an override without a trailing slash. *)
Lemma NewClient_base_URL_override_witness :
  Server (constructed (NewClient (oauth2 := canned response_200) "https://example.com/api"
                         [WithBaseURL "https://other.example/v2"]))
  = "https://other.example/v2/".
Proof.
  refine (proj1 (NewClient_base_URL_override (neturl := verbatim_url)
                   (oauth2 := canned response_200)
                   "https://example.com/api" "https://other.example/v2"
                   "https://other.example/v2" [] []
                   (constructed (NewClient (oauth2 := canned response_200)
                                   "https://example.com/api"
                                   ([] ++ WithBaseURL "https://other.example/v2" :: [])))
                   eq_refl _ eq_refl)).
  constructor.
Defined.

(** X10, at an environment with the three variables and a caller's login. *)
Lemma NewClientFromEnvironment_credentials_witness :
  user (constructed (NewClientFromEnvironment (oauth2 := canned response_200)
                       example_env [WithLogin "caller" "pw"])) = "env-key" /\
  password (constructed (NewClientFromEnvironment (oauth2 := canned response_200)
                           example_env [WithLogin "caller" "pw"])) = "env-secret".
Proof.
  destruct (NewClientFromEnvironment_credentials (neturl := verbatim_url)
              (oauth2 := canned response_200) example_env [WithLogin "caller" "pw"]
              (constructed (NewClientFromEnvironment (oauth2 := canned response_200)
                              example_env [WithLogin "caller" "pw"]))
              eq_refl) as (Huser & Hpassword & _).
  split; [exact Huser | exact Hpassword].
Defined.

(** X11, at the same environment and at the empty one. *)
Lemma NewClientFromEnvironment_server_witness :
  Server (constructed (NewClientFromEnvironment (oauth2 := canned response_200)
                         example_env [WithTrace true])) = "https://example.com/api/" /\
  Server (constructed (NewClientFromEnvironment (oauth2 := canned response_200)
                         empty_env [])) = "https://infosight.hpe.com/apis/".
Proof.
  split.
  - refine (proj1 (NewClientFromEnvironment_server (neturl := verbatim_url)
                     (oauth2 := canned response_200) example_env [WithTrace true] _)).
    constructor; [intros c; reflexivity | constructor].
  - refine (proj1 (NewClientFromEnvironment_server (neturl := verbatim_url)
                     (oauth2 := canned response_200) empty_env [] _)).
    constructor.
Defined.

(** X12, at a tracing client whose dumps succeed. *)
Lemma do_tracing_effect_witness :
  exists line,
    log (do_trace (httputil := plain_dumps) issues_request (Some response_200)
           issues_state_sent)
    = ["[TRACE] " +:+ line].
Proof.
  destruct (do_tracing_effect (neturl := verbatim_url) (httputil := plain_dumps)
              (constructed (NewClient (oauth2 := canned response_200)
                              "https://example.com/api" [WithTrace true]))
              issues_request issues_state
              ((Some response_200, None),
               do_trace (httputil := plain_dumps) issues_request (Some response_200)
                 issues_state_sent)
              eq_refl) as (inner & s1 & Hinner & Hprepare & _ & _ & Hon).
  destruct (Hon eq_refl) as [line Hline].
  injection Hinner as <-. injection Hprepare as <-.
  exists line. exact Hline.
Defined.

(** X14, at the request with a credential. *)
Lemma cloneRequest_independent_witness :
  header_at (snd (cloneRequest token_request token_state))
    (Header (fst (cloneRequest token_request token_state)))
  = {[ "Authorization" := ["BearerToken abc123"]; "Accept" := ["application/json"] ]} /\
  Header (fst (cloneRequest token_request token_state)) <> Some 1%positive.
Proof.
  destruct (cloneRequest_independent (neturl := verbatim_url) token_request
              (fst (cloneRequest token_request token_state)) token_state
              (snd (cloneRequest token_request token_state)))
    as (_ & Hother & Hsame & _).
  - intros l [= <-]. apply elem_of_dom. eexists. reflexivity.
  - apply surjective_pairing.
  - split; [rewrite Hsame; reflexivity | exact Hother].
Defined.

(** X16, at the request with a credential. *)
Lemma RoundTrip_request_twice_witness :
  exists req2 s2 req3 s3,
    RoundTrip_request token_request token_state = Some (req2, s2) /\
    RoundTrip_request req2 s2 = Some (req3, s3) /\
    Request_Header_Get req3 "Authorization" s3 = "Bearer abc123".
Proof.
  destruct (RoundTrip_request token_request token_state) as [[req2 s2]|] eqn:Hfirst;
    [|discriminate Hfirst].
  destruct (RoundTrip_request_twice (neturl := verbatim_url) _ _ _ _ Hfirst)
    as (req3 & s3 & Hsecond & _ & Hget).
  exists req2, s2, req3, s3. repeat split; [exact Hsecond|]. rewrite Hget. reflexivity.
Defined.

(** X17, at the 403 scenario. *)
Lemma NewFaultResponse_message_from_body_witness :
  FaultResponse_Error
    {| FaultResponse_Status := "403 Forbidden"; FaultResponse_StatusCode := 403;
       FaultResponse_Fault := Some {| FaultString := "forbidden"; Detail := None |} |}
  = "forbidden".
Proof.
  exact (NewFaultResponse_message_from_body response_403
           [("fault", JObject [("faultstring", JString "forbidden")])]
           _ eq_refl eq_refl).
Defined.

(** X18, at a fault body with a [status] object. *)
Lemma NewFaultResponse_status_member_witness :
  exists e, NewFaultResponse response_403_with_status
            = (None, Some (JSONError e)).
Proof.
  apply (NewFaultResponse_status_member
           response_403_with_status
           [("status", JObject [("message", JString "denied")]);
            ("fault", JObject [("faultstring", JString "forbidden")])]
           "status" (JObject [("message", JString "denied")])).
  - reflexivity.
  - left. reflexivity.
  - reflexivity.
  - vm_compute. tauto.
Defined.

(** X19, at the 403 scenario: the fault comes without an error. *)
Lemma GetObjectSet_outcomes_witness :
  exists f s',
    GetObjectSet (strconv := literal_floats) (httputil := plain_dumps)
      (constructed (NewClient (oauth2 := canned response_403) "https://example.com/api" []))
      {| Version := "v1" |} "issues" empty_state
    = Some ((VFaultResponse (Some f), None), s').
Proof.
  destruct (GetObjectSet (strconv := literal_floats) (httputil := plain_dumps)
              (constructed (NewClient (oauth2 := canned response_403)
                              "https://example.com/api" []))
              {| Version := "v1" |} "issues" empty_state)
    as [[[v err] s']|] eqn:Hrun; [|discriminate Hrun].
  pose proof (GetObjectSet_outcomes (neturl := verbatim_url) (strconv := literal_floats)
                (httputil := plain_dumps) _ _ _ _ _ _ _ Hrun) as Hcases.
  assert (Hv : exists f, v = VFaultResponse (Some f)).
  { injection Hrun as <- _ _. eexists. reflexivity. }
  destruct Hv as [f ->]. simpl in Hcases. rewrite Hcases.
  exists f, s'. reflexivity.
Defined.

(** X20, at an inner client that refuses the connection. *)
Lemma GetObjectSet_transport_error_witness :
  option_map fst
    (GetObjectSet (strconv := literal_floats) (httputil := plain_dumps)
       (constructed (NewClient (oauth2 := refusing) "https://example.com/api" []))
       {| Version := "v1" |} "issues" empty_state)
  = Some (VNil, Some (OtherError "connection refused")).
Proof.
  apply (GetObjectSet_transport_error (neturl := verbatim_url) (strconv := literal_floats)
           (httputil := plain_dumps)
           (constructed (NewClient (oauth2 := refusing) "https://example.com/api" []))
           {| Version := "v1" |} "issues" empty_state issues_state issues_state_sent
           issues_request
           (fun _ s => ((None, Some (OtherError "connection refused")), s))
           (OtherError "connection refused")); reflexivity.
Defined.

(** X21, at a success body whose [data] is a string. *)
Lemma GetObjectSet_data_not_array_witness :
  exists e,
    GetObjectSet (strconv := literal_floats) (httputil := plain_dumps)
      (constructed (NewClient (oauth2 := canned response_200_bad_data)
                      "https://example.com/api" []))
      {| Version := "v1" |} "issues" empty_state
    = Some ((VNil, Some (JSONError e)), issues_state_sent).
Proof.
  apply (GetObjectSet_data_not_array (neturl := verbatim_url) (strconv := literal_floats)
           (httputil := plain_dumps)
           (constructed (NewClient (oauth2 := canned response_200_bad_data)
                           "https://example.com/api" []))
           {| Version := "v1" |} "issues" empty_state issues_state issues_state_sent
           issues_request response_200_bad_data
           [("data", JString "none")] "data" (JString "none")).
  - reflexivity.
  - reflexivity.
  - simpl. lia.
  - reflexivity.
  - left. reflexivity.
  - reflexivity.
  - vm_compute. tauto.
Defined.

(** X22, at a fault-shaped body under HTTP 200. *)
Lemma GetObjectSet_unknown_members_witness :
  GetObjectSet (strconv := literal_floats) (httputil := plain_dumps)
    (constructed (NewClient (oauth2 := canned response_200_fault_body)
                    "https://example.com/api" []))
    {| Version := "v1" |} "issues" empty_state
  = Some ((VAPIResponse {| APIResponse_Status := None; APIResponse_Request := None;
                           Data := None |}, None), issues_state_sent).
Proof.
  apply (GetObjectSet_unknown_members (neturl := verbatim_url) (strconv := literal_floats)
           (httputil := plain_dumps)
           (constructed (NewClient (oauth2 := canned response_200_fault_body)
                           "https://example.com/api" []))
           {| Version := "v1" |} "issues" empty_state issues_state issues_state_sent
           issues_request response_200_fault_body
           [("fault", JObject [("faultstring", JString "forbidden")])]).
  - reflexivity.
  - reflexivity.
  - simpl. lia.
  - reflexivity.
  - constructor; [repeat split; reflexivity | constructor].
Defined.

(** X23, at the base URL of the examples, given with two trailing slashes. *)
Lemma GetObjectSet_URL_constructed_witness :
  exists w,
    Client_Wellness (constructed (NewClient (oauth2 := canned response_200)
                                    "https://example.com/api//" [])) = Some w /\
    queryURL (constructed (NewClient (oauth2 := canned response_200)
                             "https://example.com/api//" [])) w "issues"
    = issues_URL.
Proof.
  destruct (GetObjectSet_URL_constructed (neturl := verbatim_url)
              (oauth2 := canned response_200) "https://example.com/api//" "issues" []
              (constructed (NewClient (oauth2 := canned response_200)
                              "https://example.com/api//" [])))
    as (w & Hw & Hurl).
  - constructor.
  - reflexivity.
  - exists w. split; [exact Hw | rewrite Hurl; reflexivity].
Defined.

(** X24, at a client whose inner client always answers. *)
Lemma GetObjectSet_no_panic_witness :
  GetObjectSet (strconv := literal_floats) (httputil := plain_dumps)
    (constructed (NewClient (oauth2 := canned response_200) "https://example.com/api" []))
    {| Version := "v2" |} "alerts" empty_state
  <> None.
Proof.
  apply (GetObjectSet_no_panic (neturl := verbatim_url) (strconv := literal_floats)
           (httputil := plain_dumps) (oauth2 := canned response_200)
           "https://example.com/api" "alerts" []).
  - reflexivity.
  - intros inner req s0 [= <-]. discriminate.
Defined.

(** X25, at a client constructed with a login only. *)
Lemma NewClient_default_no_trace_witness :
  trace (constructed (NewClient (oauth2 := canned response_200) "https://example.com/api"
                        [WithLogin "key" "secret"])) = false /\
  do (httputil := plain_dumps)
    (constructed (NewClient (oauth2 := canned response_200) "https://example.com/api"
                    [WithLogin "key" "secret"]))
    issues_request issues_state
  = Some ((Some response_200, None), issues_state_sent).
Proof.
  destruct (NewClient_default_no_trace (neturl := verbatim_url)
              (oauth2 := canned response_200) (httputil := plain_dumps)
              "https://example.com/api" [WithLogin "key" "secret"]
              (constructed (NewClient (oauth2 := canned response_200)
                              "https://example.com/api" [WithLogin "key" "secret"]))
              issues_request issues_state
              ((Some response_200, None), issues_state_sent))
    as (Hoff & inner & s1 & _).
  - constructor; [intros c; reflexivity | constructor].
  - reflexivity.
  - reflexivity.
  - split; [exact Hoff | reflexivity].
Defined.
